(** * Dataverse metadata extractor: the session state engine

  A shallow embedding of [Code/dataverse_metadata_ui.py]: the persisted
  records ([AppSettings], [MetadataCache]), the view listing of
  [DataverseClient], and the callbacks of [DataverseMetadataApp] that
  mutate the session dictionaries.

  Conventions.
  - A Python dictionary used as a map (table name -> something) is a
    [gmap string _]; a dictionary used as a struct (a table, an attribute,
    a form, a view as the Web API returns them) is a record whose optional
    keys are [option] fields, [d.get(k)] reading [None] for an absent key.
    A dictionary whose items are iterated ([results] of a bulk load, the
    cache's [table_data]) is the list of its items in insertion order.
  - A callback is a computation in the monad [M]: it threads the
    application object and may raise; what it mutated before raising
    stays mutated, as in Python.
  - Worker threads ([threading.Thread(target=...).start()]) do not run
    inside a callback: starting one is recorded in [started], and the
    callback that [root.after] schedules on completion is a separate
    computation.
  - Of the widgets, [selected_tree] is part of the state: its form
    column is the only record of the chosen form, and callbacks fail on
    a row that is gone. The status bar, the message boxes, the combo
    boxes and the rows of [attr_tree] are not modelled; what a callback
    reads from [attr_tree] or from the event is its argument. *)

From Stdlib Require Import String Ascii ZArith Permutation.
From stdpp Require Import gmap strings list fin_maps sets.

Local Open Scope string_scope.

(** ** Python values and exceptions *)

Module Py.

(** [s.split('_', 1)[1]], defined when ['_' in s]. *)
Fixpoint after_underscore (s : string) : option string :=
  match s with
  | EmptyString => None
  | String c s' => if Ascii.eqb c "_" then Some s' else after_underscore s'
  end.

(** [str.lower] on the ASCII range (logical names are ASCII). *)
Definition lower_ascii (c : ascii) : ascii :=
  let n := nat_of_ascii c in
  if (65 <=? n)%nat && (n <=? 90)%nat then ascii_of_nat (n + 32) else c.

Fixpoint lower (s : string) : string :=
  match s with
  | EmptyString => EmptyString
  | String c s' => String (lower_ascii c) (lower s')
  end.

(** Truth value of a string ([if s:]) and of an optional string
    ([if d.get(k):], [None] when the key is absent). *)
Definition truthy (s : string) : bool := negb (String.eqb s "").

Definition truthy_opt (o : option string) : bool :=
  match o with Some s => truthy s | None => false end.

(** The exceptions that the modelled code can meet. *)
Inductive exn : Type :=
| KeyError (key : string)
| TclError (item : string)
| OSError
| ValueError
| TypeError
| HTTPError.

Inductive result (A : Type) : Type :=
| Ok (a : A)
| Raise (e : exn).
Arguments Ok {A} a.
Arguments Raise {A} e.

(** [try: body  except Exception as e: handler(e)] *)
Definition try_except {A} (body : result A) (handler : exn → result A) : result A :=
  match body with
  | Ok a => Ok a
  | Raise e => handler e
  end.

Definition bind {A B} (m : result A) (f : A → result B) : result B :=
  match m with
  | Ok a => f a
  | Raise e => Raise e
  end.

End Py.

Import Py.

(** ** The metadata dictionaries *)

Module Table.
(** An element of [get_solution_tables]; the keys the callbacks read. *)
Record t : Type := mk {
  LogicalName : string;
  DisplayName : string;
  PrimaryIdAttribute : option string;
  PrimaryNameAttribute : option string
}.
End Table.

Module Attribute.
(** An element of [get_entity_attributes]. *)
Record t : Type := mk {
  LogicalName : string;
  DisplayName : string;
  AttributeType : string;
  IsCustom : bool
}.
End Attribute.

Module Form.
(** A [systemforms] row: [formid] is its key, the rest is optional. *)
Record t : Type := mk {
  formid : string;
  name : option string;
  formxml : option string
}.
End Form.

Module View.
(** A [savedqueries] row: [savedqueryid] is its key; [isdefault] is the
    truth value of [v.get('isdefault')]. *)
Record t : Type := mk {
  savedqueryid : string;
  name : option string;
  isdefault : bool;
  querytype : option Z
}.
End View.

(** ** MetadataCache *)

Module MetadataCache.

Record t : Type := mk {
  environment_url : string;
  solution_name : string;
  tables : list Table.t;
  table_data : list (string * Table.t);
  table_forms : gmap string (list Form.t);
  table_views : gmap string (list View.t);
  table_attributes : gmap string (list Attribute.t)
}.

(** [MetadataCache()]: every field at its default. *)
Definition default : t := mk "" "" [] [] ∅ ∅ ∅.

Definition is_valid_for (self : t) (environment_url solution_name : string) : bool :=
  String.eqb (MetadataCache.environment_url self) environment_url
  && String.eqb (MetadataCache.solution_name self) solution_name
  && (0 <? length (tables self))%nat.

End MetadataCache.

(** ** DataverseClient.get_entity_views *)

Module DataverseClient.

(** [get_entity_views] after [result = self._get(query)]: [value] is
    [result.get('value', [])], the rows the service answered with. *)
Definition public_view (v : View.t) : bool :=
  bool_decide (View.querytype v = Some 0%Z).

Definition get_entity_views_of (value : list View.t) : list View.t :=
  List.filter public_view value.

(** The whole call, with the request as the fallible step. *)
Definition get_entity_views (_get : result (list View.t)) : result (list View.t) :=
  Py.bind _get (λ value, Ok (get_entity_views_of value)).

End DataverseClient.

(** ** AppSettings *)

Module AppSettings.

Record t : Type := mk {
  environment_url : string;
  last_solution : string;
  selected_tables : list string;
  table_forms : gmap string string;
  table_views : gmap string string;
  table_attributes : gmap string (list string);
  output_folder : string;
  project_name : string;
  window_geometry : string
}.

(** [AppSettings()]: every field at its default. *)
Definition default : t := mk "" "" [] ∅ ∅ ∅ "" "" "".

End AppSettings.

(** ** Persistence: [load] and [save] of both records

    The file system, the JSON reader and the dataclass constructor are
    not part of the program: they are the variables of this section, each
    a step that may raise. [R] is the record class ([cls]), [J] a parsed
    JSON document. Both methods have the same body in [AppSettings] and
    in [MetadataCache]. *)

Section Persistence.

Variables (R J : Type).
Variable default : R.                                (* cls() *)
Variable os_path_exists : string → bool.             (* os.path.exists(path) *)
Variable open_read : string → result string.         (* open(path, 'r'), read by json.load *)
Variable json_load : string → result J.              (* json.load(f) *)
Variable from_kwargs : J → result R.                 (* cls applied to the keywords of data *)
Variable os_makedirs : string → result unit.         (* os.makedirs(os.path.dirname(path), exist_ok=True) *)
Variable json_dump : R → result string.              (* json.dump(asdict(self), f, indent=2) *)
Variable open_write : string → string → result unit. (* open(path, 'w') and the writes to f *)

(** The [try] block of [load]: [Some r] when it reaches [return cls(...)],
    [None] when [os.path.exists] is false and control falls out of it. *)
Definition load_try (path : string) : result (option R) :=
  if os_path_exists path then
    Py.bind (open_read path) (λ f,
    Py.bind (json_load f) (λ data,
    Py.bind (from_kwargs data) (λ r, Ok (Some r))))
  else Ok None.

(** [load]: the value returned (or the exception that leaves the call)
    and the lines printed. *)
Definition load (path : string) : result R * list string :=
  match load_try path with
  | Ok (Some r) => (Ok r, [])
  | Ok None => (Ok default, [])
  | Raise e => (Ok default, ["Warning: Could not load"])
  end.

(** The [try] block of [save]. *)
Definition save_try (self : R) (path : string) : result unit :=
  Py.bind (os_makedirs path) (λ _,
  Py.bind (json_dump self) (λ text,
  open_write path text)).

(** [save]: the value returned, the record [self] afterwards (the method
    only reads it) and the lines printed. *)
Definition save (self : R) (path : string) : result unit * R * list string :=
  match save_try self path with
  | Ok _ => (Ok tt, self, [])
  | Raise e => (Ok tt, self, ["Warning: Could not save"])
  end.

(** The file is there and one of the steps that read it into the record
    raises [e]. *)
Definition unreadable (path : string) (e : exn) : Prop :=
  os_path_exists path = true
  ∧ (open_read path = Raise e
     ∨ ∃ f, open_read path = Ok f
            ∧ (json_load f = Raise e
               ∨ ∃ data, json_load f = Ok data ∧ from_kwargs data = Raise e)).

(** One of the steps that write the record raises [e]. *)
Definition unwritable (self : R) (path : string) (e : exn) : Prop :=
  os_makedirs path = Raise e
  ∨ os_makedirs path = Ok tt
    ∧ (json_dump self = Raise e
       ∨ ∃ text, json_dump self = Ok text ∧ open_write path text = Raise e).

End Persistence.

(** ** The widgets that hold session state *)

Module Tree.

(** A row of [selected_tree]: the columns [display], [form], [filter],
    [attrs], and whether the fifth value ([edit]) was given. *)
Record row : Type := mk_row {
  display : string;
  form : string;
  filter : string;
  attrs : nat;
  edit : bool
}.

(** The rows in display order, keyed by item id, and the selection. *)
Record t : Type := mk {
  rows : list (string * row);
  selection : list string
}.

Definition empty : t := mk [] [].

Definition get_children (tr : t) : list string := (rows tr).*1.

Fixpoint lookup_row (iid : string) (l : list (string * row)) : option row :=
  match l with
  | [] => None
  | (k, r) :: l' => if String.eqb k iid then Some r else lookup_row iid l'
  end.

Fixpoint update_row (iid : string) (r : row) (l : list (string * row)) : list (string * row) :=
  match l with
  | [] => []
  | (k, r0) :: l' =>
      if String.eqb k iid then (k, r) :: l' else (k, r0) :: update_row iid r l'
  end.


(** [tree.item(iid, 'values')]: Tk raises [TclError] for an unknown item. *)
Definition item (tr : t) (iid : string) : result row :=
  match lookup_row iid (rows tr) with
  | Some r => Ok r
  | None => Raise (TclError iid)
  end.

(** [tree.item(iid, values=r)] *)
Definition set_item (tr : t) (iid : string) (r : row) : result t :=
  match lookup_row iid (rows tr) with
  | Some _ => Ok (mk (update_row iid r (rows tr)) (selection tr))
  | None => Raise (TclError iid)
  end.

(** [tree.insert('', tk.END, iid=iid, values=r)]: an item id is unique. *)
Definition insert (tr : t) (iid : string) (r : row) : result t :=
  match lookup_row iid (rows tr) with
  | Some _ => Raise (TclError iid)
  | None => Ok (mk (rows tr ++ [(iid, r)]) (selection tr))
  end.


(** [tree.selection_set(iid)] *)
Definition selection_set (tr : t) (iid : string) : t := mk (rows tr) [iid].

End Tree.

Module TkVars.
(** The Tk variables that [_save_settings] copies into the settings. *)
Record t : Type := mk {
  url_var : string;
  project_var : string;
  output_var : string;
  solution_var : string;
  geometry : string
}.
End TkVars.

Module LoadState.
(** An entry of [table_load_state]. *)
Record t : Type := mk {
  attrs_loaded : bool;
  forms_loaded : bool;
  views_loaded : bool;
  attrs_loading : bool;
  forms_loading : bool;
  views_loading : bool
}.
End LoadState.

(** What a callback hands to the outside: a worker thread started, or a
    record written to its file. *)
Inductive task : Type :=
| load_attributes (logical_name : string)
| bulk_load_attributes (logical_names : list string)
| load_forms_views (logical_name : string)
| bulk_load_forms_views (logical_names : list string)
| settings_save
| cache_save.

(** ** DataverseMetadataApp: the instance attributes *)

Record App : Type := mkApp {
  settings : AppSettings.t;
  cache : MetadataCache.t;
  tables : list Table.t;
  selected_tables : gmap string Table.t;
  table_forms : gmap string (list Form.t);
  table_views : gmap string (list View.t);
  table_attributes : gmap string (list Attribute.t);
  selected_attributes : gmap string (gset string);
  selected_views : gmap string string;
  table_load_state : gmap string LoadState.t;
  selected_tree : Tree.t;
  vars : TkVars.t;
  started : list task
}.

(** Assignment to one attribute of [self]. *)

Definition set_settings (v : AppSettings.t) (self : App) : App :=
  mkApp v (cache self) (tables self) (selected_tables self) (table_forms self)
    (table_views self) (table_attributes self) (selected_attributes self)
    (selected_views self) (table_load_state self) (selected_tree self)
    (vars self) (started self).

Definition set_cache (v : MetadataCache.t) (self : App) : App :=
  mkApp (settings self) v (tables self) (selected_tables self)
    (table_forms self) (table_views self) (table_attributes self)
    (selected_attributes self) (selected_views self) (table_load_state self)
    (selected_tree self) (vars self) (started self).

Definition set_tables (v : list Table.t) (self : App) : App :=
  mkApp (settings self) (cache self) v (selected_tables self)
    (table_forms self) (table_views self) (table_attributes self)
    (selected_attributes self) (selected_views self) (table_load_state self)
    (selected_tree self) (vars self) (started self).

Definition set_selected_tables (v : gmap string Table.t) (self : App) : App :=
  mkApp (settings self) (cache self) (tables self) v (table_forms self)
    (table_views self) (table_attributes self) (selected_attributes self)
    (selected_views self) (table_load_state self) (selected_tree self)
    (vars self) (started self).

Definition set_table_forms (v : gmap string (list Form.t)) (self : App) : App :=
  mkApp (settings self) (cache self) (tables self) (selected_tables self) v
    (table_views self) (table_attributes self) (selected_attributes self)
    (selected_views self) (table_load_state self) (selected_tree self)
    (vars self) (started self).

Definition set_table_views (v : gmap string (list View.t)) (self : App) : App :=
  mkApp (settings self) (cache self) (tables self) (selected_tables self)
    (table_forms self) v (table_attributes self) (selected_attributes self)
    (selected_views self) (table_load_state self) (selected_tree self)
    (vars self) (started self).

Definition set_table_attributes (v : gmap string (list Attribute.t)) (self : App) : App :=
  mkApp (settings self) (cache self) (tables self) (selected_tables self)
    (table_forms self) (table_views self) v (selected_attributes self)
    (selected_views self) (table_load_state self) (selected_tree self)
    (vars self) (started self).

Definition set_selected_attributes (v : gmap string (gset string)) (self : App) : App :=
  mkApp (settings self) (cache self) (tables self) (selected_tables self)
    (table_forms self) (table_views self) (table_attributes self) v
    (selected_views self) (table_load_state self) (selected_tree self)
    (vars self) (started self).

Definition set_selected_views (v : gmap string string) (self : App) : App :=
  mkApp (settings self) (cache self) (tables self) (selected_tables self)
    (table_forms self) (table_views self) (table_attributes self)
    (selected_attributes self) v (table_load_state self) (selected_tree self)
    (vars self) (started self).

Definition set_table_load_state (v : gmap string LoadState.t) (self : App) : App :=
  mkApp (settings self) (cache self) (tables self) (selected_tables self)
    (table_forms self) (table_views self) (table_attributes self)
    (selected_attributes self) (selected_views self) v (selected_tree self)
    (vars self) (started self).

Definition set_selected_tree (v : Tree.t) (self : App) : App :=
  mkApp (settings self) (cache self) (tables self) (selected_tables self)
    (table_forms self) (table_views self) (table_attributes self)
    (selected_attributes self) (selected_views self) (table_load_state self) v
    (vars self) (started self).

Definition set_vars (v : TkVars.t) (self : App) : App :=
  mkApp (settings self) (cache self) (tables self) (selected_tables self)
    (table_forms self) (table_views self) (table_attributes self)
    (selected_attributes self) (selected_views self) (table_load_state self)
    (selected_tree self) v (started self).

Definition set_started (v : list task) (self : App) : App :=
  mkApp (settings self) (cache self) (tables self) (selected_tables self)
    (table_forms self) (table_views self) (table_attributes self)
    (selected_attributes self) (selected_views self) (table_load_state self)
    (selected_tree self) (vars self) v.

(** ** Callbacks as computations

    [M A]: a computation on the application object that returns an [A] or
    raises; in both cases with the object as it then is. *)

Definition M (A : Type) : Type := App → result A * App.

#[export] Instance M_ret : MRet M := λ A a self, (Ok a, self).

#[export] Instance M_bind : MBind M := λ A B f m self,
  match m self with
  | (Ok a, self') => f a self'
  | (Raise e, self') => (Raise e, self')
  end.

Definition get : M App := λ self, (Ok self, self).

Definition modify (f : App → App) : M unit := λ self, (Ok tt, f self).

(** A step that can raise and leaves [self] alone. *)
Definition lift {A} (r : result A) : M A := λ self, (r, self).

(** [threading.Thread(target=...).start()], [record.save(path)] *)
Definition start (t : task) : M unit :=
  modify (λ self, set_started (started self ++ [t]) self).

(** [for x in l: body(x)] *)
Fixpoint for_each {A} (l : list A) (body : A → M unit) : M unit :=
  match l with
  | [] => mret tt
  | x :: l' => body x ;; for_each l' body
  end.

Definition when (b : bool) (m : M unit) : M unit := if b then m else mret tt.

(** [d[k]] on a dictionary: [KeyError] when the key is absent. *)
Definition subscript {V} (d : gmap string V) (k : string) : result V :=
  match d !! k with
  | Some v => Ok v
  | None => Raise (KeyError k)
  end.

(** ** Reading the session dictionaries *)

(** [if x: required.add(x)] *)
Definition add_if_truthy (x : option string) (required : gset string) : gset string :=
  match x with
  | Some s => if truthy s then required ∪ {[s]} else required
  | None => required
  end.

Definition _get_required_attributes (self : App) (logical_name : string) : gset string :=
  match selected_tables self !! logical_name with
  | Some table_data =>
      add_if_truthy (Table.PrimaryNameAttribute table_data)
        (add_if_truthy (Table.PrimaryIdAttribute table_data) ∅)
  | None => ∅
  end.

(** The form-column values that stand for "no form chosen". *)
Definition no_form_labels : list string :=
  ["(not loaded)"; "(loading...)"; "(no forms)"].

(** The loop body of [_get_selected_forms] for one row of the tree. *)
Definition selected_form_of_row (self : App) (result : gmap string string)
    (r : string * Tree.row) : gmap string string :=
  let logical_name := r.1 in
  let selected_form_name := Tree.form r.2 in
  if truthy selected_form_name && negb (bool_decide (selected_form_name ∈ no_form_labels)) then
    match List.find (λ form, bool_decide (Form.name form = Some selected_form_name))
                    (default [] (table_forms self !! logical_name)) with
    | Some form => <[logical_name := Form.formid form]> result
    | None => result
    end
  else result.

Definition _get_selected_forms (self : App) : gmap string string :=
  foldl (selected_form_of_row self) ∅ (Tree.rows (selected_tree self)).

(** [s.split(' - ')[0]] *)
Fixpoint before_dash (s : string) : string :=
  match s with
  | EmptyString => EmptyString
  | String c s' => if String.prefix " - " s then EmptyString else String c (before_dash s')
  end.

Definition solution_of_var (solution_var : string) (otherwise : string) : string :=
  if truthy solution_var then before_dash solution_var else otherwise.

(** [_save_settings]: the settings are rebuilt from the widgets and the
    dictionaries, then written. The order of [list(d.keys())] and of
    [list(a_set)] is the enumeration order of the map and of the set. *)
Definition _save_settings : M unit :=
  modify (λ self,
    set_settings
      (AppSettings.mk
         (TkVars.url_var (vars self))
         (solution_of_var (TkVars.solution_var (vars self)) "")
         (map_to_list (selected_tables self)).*1
         (_get_selected_forms self)
         (selected_views self)
         (elements <$> selected_attributes self)
         (TkVars.output_var (vars self))
         (TkVars.project_var (vars self))
         (TkVars.geometry (vars self)))
      self) ;;
  start settings_save.

Definition _autosave : M unit := _save_settings.

(** [_save_cache] *)
Definition _save_cache : M unit :=
  self ← get;
  let env_url := TkVars.url_var (vars self) in
  let solution :=
    solution_of_var (TkVars.solution_var (vars self))
                    (AppSettings.last_solution (settings self)) in
  if negb (truthy env_url) || negb (truthy solution) then mret tt
  else
    modify (set_cache
      (MetadataCache.mk env_url solution (tables self)
         (map_to_list (selected_tables self))
         (table_forms self) (table_views self) (table_attributes self))) ;;
    start cache_save.

(** [values[i] = x] on the values of a row. *)
Definition set_values_1 (x : string) (values : Tree.row) : Tree.row :=
  Tree.mk_row (Tree.display values) x (Tree.filter values) (Tree.attrs values) (Tree.edit values).

Definition set_values_2 (x : string) (values : Tree.row) : Tree.row :=
  Tree.mk_row (Tree.display values) (Tree.form values) x (Tree.attrs values) (Tree.edit values).

Definition set_values_3 (x : nat) (values : Tree.row) : Tree.row :=
  Tree.mk_row (Tree.display values) (Tree.form values) (Tree.filter values) x (Tree.edit values).

(** [values = list(tree.item(iid, 'values')); f(values);
    tree.item(iid, values=values)] *)
Definition edit_row (logical_name : string) (f : Tree.row → Tree.row) : M unit :=
  self ← get;
  values ← lift (Tree.item (selected_tree self) logical_name);
  tr ← lift (Tree.set_item (selected_tree self) logical_name (f values));
  modify (set_selected_tree tr).

(** [_update_attributes_display], as far as it writes to [selected_tree]:
    the count column of the table's row. (The rows of [attr_tree] that it
    rebuilds carry the item ids [attr_item_id].) *)
Definition _update_attributes_display (logical_name : string) : M unit :=
  self ← get;
  let selected := default ∅ (selected_attributes self !! logical_name) in
  when (bool_decide (is_Some (selected_tables self !! logical_name)))
       (edit_row logical_name (set_values_3 (size selected))).

(** The item id that [_update_attributes_display] gives the row of an
    attribute: [f"{logical_name}_{logical}"]. *)
Definition attr_item_id (logical_name logical : string) : string :=
  logical_name +:+ "_" +:+ logical.

(** ** Loading forms and views *)

Definition set_forms_views_loading (b : bool) (state : LoadState.t) : LoadState.t :=
  LoadState.mk (LoadState.attrs_loaded state) (LoadState.forms_loaded state)
    (LoadState.views_loaded state) (LoadState.attrs_loading state) b b.

Definition set_forms_views_loaded (state : LoadState.t) : LoadState.t :=
  LoadState.mk (LoadState.attrs_loaded state) true true
    (LoadState.attrs_loading state) false false.

Definition set_attrs_loading (b : bool) (state : LoadState.t) : LoadState.t :=
  LoadState.mk (LoadState.attrs_loaded state) (LoadState.forms_loaded state)
    (LoadState.views_loaded state) b (LoadState.forms_loading state)
    (LoadState.views_loading state).

Definition set_attrs_loaded (state : LoadState.t) : LoadState.t :=
  LoadState.mk true (LoadState.forms_loaded state) (LoadState.views_loaded state)
    false (LoadState.forms_loading state) (LoadState.views_loading state).

(** [state.get(flag)] on [state = table_load_state.get(name, {})]. *)
Definition flag (f : LoadState.t → bool) (state : option LoadState.t) : bool :=
  match state with Some st => f st | None => false end.

(** The first loop of [_load_forms_views_bulk]: the names to load, each
    marked as loading when it has a load state. *)
Fixpoint forms_views_to_load (logical_names tables_to_load : list string)
    : M (list string) :=
  match logical_names with
  | [] => mret tables_to_load
  | logical_name :: rest =>
      self ← get;
      let state := table_load_state self !! logical_name in
      if negb (flag LoadState.forms_loaded state) && negb (flag LoadState.forms_loading state)
      then
        match state with
        | Some st =>
            modify (set_table_load_state
              (<[logical_name := set_forms_views_loading true st]> (table_load_state self)))
        | None => mret tt
        end ;;
        forms_views_to_load rest (tables_to_load ++ [logical_name])
      else forms_views_to_load rest tables_to_load
  end.

Definition _load_forms_views_bulk (logical_names : list string) : M unit :=
  tables_to_load ← forms_views_to_load logical_names [];
  match tables_to_load with
  | [] => mret tt
  | _ => start (bulk_load_forms_views tables_to_load)
  end.

Definition _on_selected_table_click : M unit :=
  self ← get;
  match Tree.selection (selected_tree self) with
  | [] => mret tt
  | logical_name :: _ =>
      if bool_decide (is_Some (selected_tables self !! logical_name)) then
        let state := table_load_state self !! logical_name in
        when (negb (flag LoadState.forms_loaded state) && negb (flag LoadState.forms_loading state))
             (_load_forms_views_bulk [logical_name]) ;;
        _update_attributes_display logical_name
      else mret tt
  end.

(** ** Attribute selection: the four callbacks of [attr_tree] *)

(** [if a in s: s.discard(a)  else: s.add(a)] *)
Definition toggle (attr_name : string) (s : gset string) : gset string :=
  if bool_decide (attr_name ∈ s) then s ∖ {[attr_name]} else s ∪ {[attr_name]}.

(** [if logical_name not in self.selected_attributes:
       self.selected_attributes[logical_name] = set()] *)
Definition ensure_selected_attributes (logical_name : string) : M unit :=
  modify (λ self,
    match selected_attributes self !! logical_name with
    | Some _ => self
    | None => set_selected_attributes (<[logical_name := ∅]> (selected_attributes self)) self
    end).

(** [self.selected_attributes[logical_name]] updated in place by [f];
    the entry exists wherever this is used. *)
Definition update_selected (logical_name : string) (f : gset string → gset string) : M unit :=
  modify (λ self,
    set_selected_attributes (alter f logical_name (selected_attributes self)) self).

(** [_on_attr_click(event)]; [item_id] is
    [self.attr_tree.identify_row(event.y)]. Returns ['break'] or [None]. *)
Definition _on_attr_click (item_id : string) : M (option string) :=
  if negb (truthy item_id) then mret None
  else
    self ← get;
    match Tree.selection (selected_tree self) with
    | [] => mret None
    | logical_name :: _ =>
        match after_underscore item_id with
        | None => mret None
        | Some attr_name =>
            if bool_decide (attr_name ∈ _get_required_attributes self logical_name)
            then mret (Some "break")
            else
              ensure_selected_attributes logical_name ;;
              update_selected logical_name (toggle attr_name) ;;
              _update_attributes_display logical_name ;;
              _autosave ;;
              mret (Some "break")
        end
    end.





(** ** The reconciler: choosing attributes, a form and a view *)

Definition important_fields : list string :=
  ["createdon"; "modifiedon"; "createdby"; "modifiedby"; "ownerid"; "statecode"; "statuscode"].

(** [for attr in attributes:
       if attr.get('LogicalName', '').lower() in important_fields:
           selection.add(attr.get('LogicalName'))] *)
Definition add_important (attributes : list Attribute.t) (selection : gset string) : gset string :=
  foldl (λ s attr,
           if bool_decide (lower (Attribute.LogicalName attr) ∈ important_fields)
           then s ∪ {[Attribute.LogicalName attr]} else s)
        selection attributes.

(** [if saved_attrs: selection.update(saved_attrs)  else: ...defaults...],
    with [saved_attrs = self.settings.table_attributes.get(logical_name)]. *)
Definition restore_saved_attrs (saved_attrs : option (list string))
    (attributes : list Attribute.t) (selection : gset string) : gset string :=
  match saved_attrs with
  | Some (x :: l) => selection ∪ list_to_set (x :: l)
  | Some [] | None => add_important attributes selection
  end.

(** [next((f for f in forms if f.get('formid') == saved_form_id), None)
     or forms[0]], under [if forms:]. *)
Definition select_form (forms : list Form.t) (saved_form_id : option string) : option Form.t :=
  match forms with
  | [] => None
  | first :: _ =>
      match List.find (λ f, bool_decide (Some (Form.formid f) = saved_form_id)) forms with
      | Some f => Some f
      | None => Some first
      end
  end.

(** The form column: [sel_form.get('name', 'Unnamed')], or the label
    ['(no forms)'] when there is no form. *)
Definition form_label (forms : list Form.t) (saved_form_id : option string) : string :=
  match select_form forms saved_form_id with
  | Some sel_form => default "Unnamed" (Form.name sel_form)
  | None => "(no forms)"
  end.

(** [next((v for v in views if v.get('isdefault')), views[0])] *)
Definition default_view (first : View.t) (views : list View.t) : View.t :=
  default first (List.find View.isdefault views).

(** [sel_view = next((v for v in views
                       if v.get('savedqueryid') == saved_view_id), None)
     if not sel_view: sel_view = next(<default>, views[0])], under
    [if views:]. *)
Definition select_view (views : list View.t) (saved_view_id : option string) : option View.t :=
  match views with
  | [] => None
  | first :: _ =>
      match List.find (λ v, bool_decide (Some (View.savedqueryid v) = saved_view_id)) views with
      | Some v => Some v
      | None => Some (default_view first views)
      end
  end.

Definition view_label (sel_view : option View.t) : string :=
  match sel_view with
  | Some v => default "Unnamed" (View.name v)
  | None => "(no views)"
  end.

(** [if views: ...; self.selected_views[logical_name] =
    sel_view.get('savedqueryid')] *)
Definition record_view (logical_name : string) (sel_view : option View.t) : M unit :=
  match sel_view with
  | Some v =>
      modify (λ self, set_selected_views
        (<[logical_name := View.savedqueryid v]> (selected_views self)) self)
  | None => mret tt
  end.

(** ** Adding one table: [_add_table_to_selection] and its completions *)

Definition _load_attributes_for_table (logical_name : string) : M unit :=
  self ← get;
  match table_load_state self !! logical_name with
  | None => mret tt
  | Some state =>
      if LoadState.attrs_loading state then mret tt
      else
        modify (set_table_load_state
          (<[logical_name := set_attrs_loading true state]> (table_load_state self))) ;;
        start (load_attributes logical_name)
  end.

Definition _add_table_to_selection (table : Table.t) : M unit :=
  let logical_name := Table.LogicalName table in
  self ← get;
  if bool_decide (is_Some (selected_tables self !! logical_name)) then mret tt
  else
    modify (λ self, set_selected_tables (<[logical_name := table]> (selected_tables self)) self) ;;
    modify (λ self, set_selected_attributes (<[logical_name := ∅]> (selected_attributes self)) self) ;;
    modify (λ self, set_table_load_state
      (<[logical_name := LoadState.mk false false false false false false]>
         (table_load_state self)) self) ;;
    self ← get;
    tr ← lift (Tree.insert (selected_tree self) logical_name
                 (Tree.mk_row (Table.DisplayName table) "(not loaded)" "(not loaded)" 0 true));
    modify (set_selected_tree tr) ;;
    _load_attributes_for_table logical_name.

(** [self.selected_attributes[logical_name]], a [KeyError] when absent. *)
Definition selected_of (logical_name : string) : M (gset string) :=
  self ← get; lift (subscript (selected_attributes self) logical_name).

(** The count column after a load: [values[3] =
    len(self.selected_attributes[logical_name])]. *)
Definition update_count (logical_name : string) : M unit :=
  self ← get;
  when (bool_decide (is_Some (selected_tables self !! logical_name)))
       (selected ← selected_of logical_name;
        edit_row logical_name (set_values_3 (size selected))).

Definition _on_attributes_loaded (logical_name : string) (attributes : list Attribute.t)
    : M unit :=
  self ← get;
  if negb (bool_decide (is_Some (selected_tables self !! logical_name))) then mret tt
  else
    modify (λ self, set_table_attributes
      (<[logical_name := attributes]> (table_attributes self)) self) ;;
    state ← lift (subscript (table_load_state self) logical_name);
    modify (λ self, set_table_load_state
      (<[logical_name := set_attrs_loaded state]> (table_load_state self)) self) ;;
    let required_attrs := _get_required_attributes self logical_name in
    selected ← selected_of logical_name;
    let saved_attrs := AppSettings.table_attributes (settings self) !! logical_name in
    modify (λ self, set_selected_attributes
      (<[logical_name := restore_saved_attrs saved_attrs attributes (selected ∪ required_attrs)]>
         (selected_attributes self)) self) ;;
    update_count logical_name ;;
    self ← get;
    match Tree.selection (selected_tree self) with
    | first :: _ =>
        when (String.eqb first logical_name) (_update_attributes_display logical_name)
    | [] =>
        match Tree.get_children (selected_tree self) with
        | child :: _ =>
            modify (λ self, set_selected_tree
              (Tree.selection_set (selected_tree self) child) self) ;;
            _on_selected_table_click
        | [] => mret tt
        end
    end ;;
    _load_forms_views_bulk [logical_name] ;;
    _autosave.

Definition _on_attributes_error (logical_name error : string) : M unit :=
  modify (λ self,
    match table_load_state self !! logical_name with
    | Some state =>
        set_table_load_state
          (<[logical_name := set_attrs_loading false state]> (table_load_state self)) self
    | None => self
    end).

Definition _load_forms_views_for_table (logical_name : string) : M unit :=
  self ← get;
  match table_load_state self !! logical_name with
  | None => mret tt
  | Some state =>
      if LoadState.forms_loading state || LoadState.views_loading state then mret tt
      else if LoadState.forms_loaded state && LoadState.views_loaded state then mret tt
      else
        modify (set_table_load_state
          (<[logical_name := set_forms_views_loading true state]> (table_load_state self))) ;;
        edit_row logical_name (λ values, set_values_2 "(loading...)" (set_values_1 "(loading...)" values)) ;;
        start (load_forms_views logical_name)
  end.

Definition _on_forms_views_loaded (logical_name : string)
    (forms : list Form.t) (views : list View.t) : M unit :=
  self ← get;
  match selected_tables self !! logical_name with
  | None => mret tt
  | Some table =>
      modify (λ self, set_table_forms (<[logical_name := forms]> (table_forms self)) self) ;;
      modify (λ self, set_table_views (<[logical_name := views]> (table_views self)) self) ;;
      state ← lift (subscript (table_load_state self) logical_name);
      modify (λ self, set_table_load_state
        (<[logical_name := set_forms_views_loaded state]> (table_load_state self)) self) ;;
      let selected_form_name :=
        form_label forms (AppSettings.table_forms (settings self) !! logical_name) in
      let selected_view :=
        select_view views (AppSettings.table_views (settings self) !! logical_name) in
      let default_view_name := view_label selected_view in
      record_view logical_name selected_view ;;
      self ← get;
      tr ← lift (Tree.set_item (selected_tree self) logical_name
                   (Tree.mk_row (Table.DisplayName table) selected_form_name default_view_name
                      (size (default ∅ (selected_attributes self !! logical_name))) false));
      modify (set_selected_tree tr) ;;
      match Tree.selection (selected_tree self) with
      | first :: _ => when (String.eqb first logical_name) _on_selected_table_click
      | [] => mret tt
      end ;;
      _autosave
  end.

Definition _on_forms_views_error (logical_name error : string) : M unit :=
  modify (λ self,
    match table_load_state self !! logical_name with
    | Some state =>
        set_table_load_state
          (<[logical_name := set_forms_views_loading false state]> (table_load_state self)) self
    | None => self
    end) ;;
  edit_row logical_name (λ values, set_values_2 "(error)" (set_values_1 "(error)" values)).

(** ** Adding several tables: [_add_tables_bulk] and its completions *)

(** The loop body of [_add_tables_bulk]. *)
Definition add_table_row (table : Table.t) : M unit :=
  let logical_name := Table.LogicalName table in
  self ← get;
  if bool_decide (is_Some (selected_tables self !! logical_name)) then mret tt
  else
    modify (λ self, set_selected_tables (<[logical_name := table]> (selected_tables self)) self) ;;
    modify (λ self, set_selected_attributes (<[logical_name := ∅]> (selected_attributes self)) self) ;;
    modify (λ self, set_table_load_state
      (<[logical_name := LoadState.mk false false false true false false]>
         (table_load_state self)) self) ;;
    self ← get;
    tr ← lift (Tree.insert (selected_tree self) logical_name
                 (Tree.mk_row (Table.DisplayName table) "(loading...)" "(loading...)" 0 false));
    modify (set_selected_tree tr).

Definition _add_tables_bulk (tables : list Table.t) : M unit :=
  for_each tables add_table_row ;;
  start (bulk_load_attributes (Table.LogicalName <$> tables)).

(** The loop body of [_on_bulk_attributes_loaded]. *)
Definition apply_attributes (r : string * list Attribute.t) : M unit :=
  let logical_name := r.1 in
  let attributes := r.2 in
  self ← get;
  if negb (bool_decide (is_Some (selected_tables self !! logical_name))) then mret tt
  else
    modify (λ self, set_table_attributes
      (<[logical_name := attributes]> (table_attributes self)) self) ;;
    match table_load_state self !! logical_name with
    | Some state =>
        modify (λ self, set_table_load_state
          (<[logical_name := set_attrs_loaded state]> (table_load_state self)) self)
    | None => mret tt
    end ;;
    let required_attrs := _get_required_attributes self logical_name in
    let saved_attrs := AppSettings.table_attributes (settings self) !! logical_name in
    modify (λ self, set_selected_attributes
      (<[logical_name := restore_saved_attrs saved_attrs attributes required_attrs]>
         (selected_attributes self)) self) ;;
    update_count logical_name.

(** [results] is a dictionary in insertion order: its items as a list. *)
Definition _on_bulk_attributes_loaded (results : list (string * list Attribute.t)) : M unit :=
  for_each results apply_attributes ;;
  self ← get;
  match Tree.selection (selected_tree self) with
  | first :: _ =>
      when (bool_decide (first ∈ results.*1)) (_update_attributes_display first)
  | [] => mret tt
  end ;;
  _load_forms_views_bulk results.*1 ;;
  _autosave.

(** The loop body of [_on_bulk_forms_views_loaded]. *)
Definition apply_forms_views (r : string * (list Form.t * list View.t)) : M unit :=
  let logical_name := r.1 in
  let forms := r.2.1 in
  let views := r.2.2 in
  self ← get;
  if negb (bool_decide (is_Some (selected_tables self !! logical_name))) then mret tt
  else
    modify (λ self, set_table_forms (<[logical_name := forms]> (table_forms self)) self) ;;
    modify (λ self, set_table_views (<[logical_name := views]> (table_views self)) self) ;;
    match table_load_state self !! logical_name with
    | Some state =>
        modify (λ self, set_table_load_state
          (<[logical_name := set_forms_views_loaded state]> (table_load_state self)) self)
    | None => mret tt
    end ;;
    let form_name :=
      form_label forms (AppSettings.table_forms (settings self) !! logical_name) in
    let sel_view :=
      select_view views (AppSettings.table_views (settings self) !! logical_name) in
    let view_name := view_label sel_view in
    record_view logical_name sel_view ;;
    edit_row logical_name (λ values, set_values_2 view_name (set_values_1 form_name values)).

Definition _on_bulk_forms_views_loaded
    (results : list (string * (list Form.t * list View.t))) : M unit :=
  for_each results apply_forms_views ;;
  _save_cache ;;
  _autosave ;;
  self ← get;
  match Tree.get_children (selected_tree self), Tree.selection (selected_tree self) with
  | child :: _, [] =>
      modify (set_selected_tree (Tree.selection_set (selected_tree self) child)) ;;
      _on_selected_table_click
  | _, _ => mret tt
  end.

(** ** Removing tables *)



(** ** Restoring the session from the cache *)

(** [saved_view_id = self.settings.table_views.get(logical_name)
     if saved_view_id: self.selected_views[logical_name] = saved_view_id
     elif cached_views: ... default_view.get('savedqueryid')] *)
Definition restore_view (saved_view_id : option string) (cached_views : list View.t)
    : option string :=
  if truthy_opt saved_view_id then saved_view_id
  else
    match cached_views with
    | [] => None
    | first :: _ => Some (View.savedqueryid (default_view first cached_views))
    end.

(** The loop body of [_restore_from_cache]. *)
Definition restore_table (r : string * Table.t) : M unit :=
  let logical_name := r.1 in
  let table_data := r.2 in
  modify (λ self, set_selected_tables (<[logical_name := table_data]> (selected_tables self)) self) ;;
  self ← get;
  let cached_forms := default [] (MetadataCache.table_forms (cache self) !! logical_name) in
  let cached_views := default [] (MetadataCache.table_views (cache self) !! logical_name) in
  let cached_attrs := default [] (MetadataCache.table_attributes (cache self) !! logical_name) in
  modify (λ self, set_table_forms (<[logical_name := cached_forms]> (table_forms self)) self) ;;
  modify (λ self, set_table_views (<[logical_name := cached_views]> (table_views self)) self) ;;
  modify (λ self, set_table_attributes (<[logical_name := cached_attrs]> (table_attributes self)) self) ;;
  modify (λ self, set_table_load_state
    (<[logical_name := LoadState.mk (0 <? length cached_attrs)%nat (0 <? length cached_forms)%nat
                         (0 <? length cached_views)%nat false false false]>
       (table_load_state self)) self) ;;
  let saved_attrs := default [] (AppSettings.table_attributes (settings self) !! logical_name) in
  let required_attrs := _get_required_attributes self logical_name in
  let selected := required_attrs ∪ list_to_set saved_attrs in
  modify (λ self, set_selected_attributes
    (<[logical_name := selected]> (selected_attributes self)) self) ;;
  let saved_view_id := AppSettings.table_views (settings self) !! logical_name in
  match restore_view saved_view_id cached_views with
  | Some view_id =>
      modify (λ self, set_selected_views (<[logical_name := view_id]> (selected_views self)) self)
  | None => mret tt
  end ;;
  let form_name :=
    form_label cached_forms (AppSettings.table_forms (settings self) !! logical_name) in
  self ← get;
  let view_name :=
    match List.find (λ v, bool_decide (Some (View.savedqueryid v) = selected_views self !! logical_name))
                    cached_views with
    | Some sel_view => default "Unnamed" (View.name sel_view)
    | None => "(no views)"
    end in
  tr ← lift (Tree.insert (selected_tree self) logical_name
               (Tree.mk_row (Table.DisplayName table_data) form_name view_name (size selected) true));
  modify (set_selected_tree tr).

Definition set_last_solution (solution : string) (s : AppSettings.t) : AppSettings.t :=
  AppSettings.mk (AppSettings.environment_url s) solution (AppSettings.selected_tables s)
    (AppSettings.table_forms s) (AppSettings.table_views s) (AppSettings.table_attributes s)
    (AppSettings.output_folder s) (AppSettings.project_name s) (AppSettings.window_geometry s).

Definition set_solution_var (x : string) (v : TkVars.t) : TkVars.t :=
  TkVars.mk (TkVars.url_var v) (TkVars.project_var v) (TkVars.output_var v) x (TkVars.geometry v).

Definition _restore_from_cache : M unit :=
  self ← get;
  let env_url := AppSettings.environment_url (settings self) in
  let last_solution := AppSettings.last_solution (settings self) in
  let solution :=
    if negb (truthy last_solution) && truthy (MetadataCache.solution_name (cache self))
    then MetadataCache.solution_name (cache self) else last_solution in
  if negb (truthy env_url) || negb (truthy solution) then mret tt
  else if negb (MetadataCache.is_valid_for (cache self) env_url solution) then mret tt
  else
    when (negb (truthy last_solution))
         (modify (λ self, set_settings (set_last_solution solution (settings self)) self)) ;;
    modify (set_tables (MetadataCache.tables (cache self))) ;;
    for_each (MetadataCache.table_data (cache self)) restore_table ;;
    self ← get;
    when (truthy (AppSettings.last_solution (settings self)))
         (modify (λ self, set_vars
            (set_solution_var (AppSettings.last_solution (settings self)) (vars self)) self)) ;;
    match Tree.get_children (selected_tree self) with
    | first_table :: _ =>
        modify (λ self, set_selected_tree
          (Tree.selection_set (selected_tree self) first_table) self) ;;
        _update_attributes_display first_table
    | [] => mret tt
    end ;;
    _autosave.

(** ** The worker threads

    The client is the remote service: each of its calls answers or
    raises. [completed] is the order in which [as_completed] yields the
    futures, one per submitted name. *)

Section Workers.

Variable get_entity_attributes : string → result (list Attribute.t).
Variable get_entity_forms : string → result (list Form.t).
Variable get_entity_views : string → result (list View.t).

(** [results[k] = v] on a dictionary in insertion order. *)
Fixpoint dict_set {V} (k : string) (v : V) (d : list (string * V)) : list (string * V) :=
  match d with
  | [] => [(k, v)]
  | (k', v') :: d' =>
      if String.eqb k' k then (k', v) :: d' else (k', v') :: dict_set k v d'
  end.

(** [do_parallel_load] of [_add_tables_bulk], up to the [root.after]. *)
Definition attributes_parallel_load (completed : list string)
    : result (list (string * list Attribute.t)) :=
  foldl (λ acc logical_name,
           Py.bind acc (λ results,
           Py.bind (try_except (get_entity_attributes logical_name) (λ e, Ok []))
                   (λ attributes, Ok (dict_set logical_name attributes results))))
        (Ok []) completed.

Definition _fetch_forms_views (logical_name : string) : result (list Form.t * list View.t) :=
  Py.bind (get_entity_forms logical_name) (λ forms,
  Py.bind (get_entity_views logical_name) (λ views,
  Ok (forms, views))).

(** [do_parallel_load] of [_load_forms_views_bulk]. *)
Definition forms_views_parallel_load (completed : list string)
    : result (list (string * (list Form.t * list View.t))) :=
  foldl (λ acc logical_name,
           Py.bind acc (λ results,
           Py.bind (try_except (_fetch_forms_views logical_name) (λ e, Ok ([], [])))
                   (λ fv, Ok (dict_set logical_name fv results))))
        (Ok []) completed.

(** The thread started by [_add_tables_bulk] and the callback it
    schedules. *)
Definition bulk_attributes_completion (completed : list string) : M unit :=
  results ← lift (attributes_parallel_load completed);
  _on_bulk_attributes_loaded results.

Definition bulk_forms_views_completion (completed : list string) : M unit :=
  results ← lift (forms_views_parallel_load completed);
  _on_bulk_forms_views_loaded results.

(** [do_load] of [_load_attributes_for_table] with its callback. *)
Definition attributes_completion (logical_name : string) : M unit :=
  match get_entity_attributes logical_name with
  | Ok attributes => _on_attributes_loaded logical_name attributes
  | Raise e => _on_attributes_error logical_name "error"
  end.

(** [do_load] of [_load_forms_views_for_table] with its callback. *)
Definition forms_views_completion (logical_name : string) : M unit :=
  match _fetch_forms_views logical_name with
  | Ok (forms, views) => _on_forms_views_loaded logical_name forms views
  | Raise e => _on_forms_views_error logical_name "error"
  end.

End Workers.

(** ** Sessions and the properties stated about them *)





(** The selection of [logical_name] holds its required attributes. *)
Definition required_selected (self : App) (logical_name : string) : Prop :=
  ∃ s, selected_attributes self !! logical_name = Some s
       ∧ _get_required_attributes self logical_name ⊆ s.

(** Every selected table has its row in [selected_tree]. *)
Definition rows_cover (self : App) : Prop :=
  ∀ k, is_Some (selected_tables self !! k) →
       is_Some (Tree.lookup_row k (Tree.rows (selected_tree self))).


(** A computation that leaves a part of the object as it was. *)
Definition keeps {X A} (part : App → X) (m : M A) : Prop :=
  ∀ self, part (m self).2 = part self.

(** The object after a computation, returned or raised. *)
Definition state_of {A} (m : M A) (self : App) : App := (m self).2.

(** ** Sample data *)

(** The application before any table is added. *)
Definition empty_app : App :=
  mkApp AppSettings.default MetadataCache.default [] ∅ ∅ ∅ ∅ ∅ ∅ ∅ Tree.empty
    (TkVars.mk "" "" "" "" "") [].

Definition account : Table.t := Table.mk "account" "Account" (Some "accountid") (Some "name").

Definition contact : Table.t := Table.mk "contact" "Contact" (Some "contactid") (Some "fullname").

Definition account_attributes : list Attribute.t :=
  [Attribute.mk "accountid" "Account" "Uniqueidentifier" false;
   Attribute.mk "name" "Account Name" "String" false;
   Attribute.mk "createdon" "Created On" "DateTime" false].

Definition account_forms : list Form.t :=
  [Form.mk "F2" (Some "Account") None; Form.mk "F3" (Some "Sales Insights") None].

Definition account_views : list View.t :=
  [View.mk "V1" (Some "Active Accounts") false (Some 0%Z);
   View.mk "V2" (Some "My Active Accounts") true (Some 0%Z)].

(** [account] added in bulk, then its attributes, forms and views
    loaded. *)
Definition account_loaded : App :=
  state_of (_on_bulk_forms_views_loaded [("account", (account_forms, account_views))])
    (state_of (_on_bulk_attributes_loaded [("account", account_attributes)])
       (state_of (_add_tables_bulk [account]) empty_app)).






(** Two trees with the same items, whose rows agree on the form and
    filter columns. *)
Definition same_choices (tr tr' : Tree.t) : Prop :=
  (Tree.rows tr').*1 = (Tree.rows tr).*1
  ∧ ∀ k, Tree.form <$> Tree.lookup_row k (Tree.rows tr')
         = Tree.form <$> Tree.lookup_row k (Tree.rows tr)
       ∧ Tree.filter <$> Tree.lookup_row k (Tree.rows tr')
         = Tree.filter <$> Tree.lookup_row k (Tree.rows tr).

(** A step that returns whenever every selected table has its row, and
    leaves the selected tables and the choices shown in the tree. *)
Definition tidy {A} (m : M A) : Prop :=
  ∀ self, rows_cover self →
    ∃ a self', m self = (Ok a, self')
      ∧ selected_tables self' = selected_tables self
      ∧ same_choices (selected_tree self) (selected_tree self').

(** The attribute flags ([attrs_loaded], [attrs_loading]) of every
    load state. *)
Definition attrs_flags (self : App) : gmap string (bool * bool) :=
  (λ st, (LoadState.attrs_loaded st, LoadState.attrs_loading st)) <$> table_load_state self.

(** The settings of an earlier session: the selection saved for
    [entity] names [custom_field], which the table no longer has. *)
Definition entity : Table.t := Table.mk "entity" "Entity" (Some "id") (Some "name").

Definition entity_attributes : list Attribute.t :=
  [Attribute.mk "id" "Entity" "Uniqueidentifier" false;
   Attribute.mk "name" "Name" "String" false;
   Attribute.mk "createdon" "Created On" "DateTime" false].

Definition saved_session : App :=
  set_settings
    (AppSettings.mk "" "" ["entity"] ∅ ∅ {["entity" := ["id"; "custom_field"]]} "" "" "")
    empty_app.

(** [entity] added again and its attributes fetched, in bulk and alone. *)
Definition entity_loaded_bulk : App :=
  state_of (_on_bulk_attributes_loaded [("entity", entity_attributes)])
    (state_of (_add_tables_bulk [entity]) saved_session).

Definition entity_loaded_alone : App :=
  state_of (_on_attributes_loaded "entity" entity_attributes)
    (state_of (_add_table_to_selection entity) saved_session).

(** A service that fails for [account] and answers for the rest. *)
Definition failing_for_account (logical_name : string) : result (list Attribute.t) :=
  if String.eqb logical_name "account" then Raise HTTPError else Ok entity_attributes.

(** [account] and [contact] added in one batch; the fetch of [contact]
    completes first, the fetch of [account] raises. *)
Definition batch_done : App :=
  state_of (bulk_attributes_completion failing_for_account ["contact"; "account"])
    (state_of (_add_tables_bulk [account; contact]) empty_app).

(** The settings of an earlier session name the form [F1] for
    [account]; [account] is added again. *)
Definition form_saved_session : App :=
  state_of (_add_tables_bulk [account])
    (set_settings (AppSettings.mk "" "" ["account"] {["account" := "F1"]} ∅ ∅ "" "" "")
       empty_app).

(** A start of the application: the cache holds [account] with its
    views [V1] and [V2], the settings name the view [V9] for it. *)
Definition stale_view_session : App :=
  mkApp
    (AppSettings.mk "https://org.crm.dynamics.com" "Sales" ["account"] ∅
       {["account" := "V9"]} ∅ "" "" "")
    (MetadataCache.mk "https://org.crm.dynamics.com" "Sales" [account]
       [("account", account)] {["account" := account_forms]}
       {["account" := account_views]} {["account" := account_attributes]})
    [] ∅ ∅ ∅ ∅ ∅ ∅ ∅ Tree.empty
    (TkVars.mk "https://org.crm.dynamics.com" "" "" "" "") [].

(** The same settings, with [account] added and its views fetched. *)
Definition stale_view_fetched : App :=
  state_of (_on_bulk_forms_views_loaded [("account", (account_forms, account_views))])
    (state_of (_add_tables_bulk [account])
       (set_settings (settings stale_view_session) empty_app)).

(** A part of the object that is none of: the settings, the cache, the
    load states, the tree, the started tasks. The steps that only
    display, save or start a load keep such a part. *)
Definition data_part {X} (part : App → X) : Prop :=
  (∀ v self, part (set_settings v self) = part self)
  ∧ (∀ v self, part (set_cache v self) = part self)
  ∧ (∀ v self, part (set_table_load_state v self) = part self)
  ∧ (∀ v self, part (set_selected_tree v self) = part self)
  ∧ (∀ v self, part (set_started v self) = part self).

(** [d.get(k)] on a dictionary in insertion order. *)
Fixpoint dict_get {V} (k : string) (d : list (string * V)) : option V :=
  match d with
  | [] => None
  | (k', v) :: d' => if String.eqb k' k then Some v else dict_get k d'
  end.

(** What a task of the bulk attribute load leaves in [results]. *)
Definition attributes_or_empty (r : result (list Attribute.t)) : list Attribute.t :=
  match r with Ok attributes => attributes | Raise _ => [] end.

(** * Properties *)

(** ** Cache validity *)

Lemma string_eqb_true (a b : string) : String.eqb a b = true ↔ a = b.
Proof. apply String.eqb_eq. Qed.

(** C5. [is_valid_for(u, s)] is true exactly when the stored environment
    URL is [u], the stored solution name is [s] and the table list is not
    empty; on a cache without tables (the empty cache [MetadataCache()]
    among them) it is false for every [u] and [s]. *)
Theorem is_valid_for_spec (c : MetadataCache.t) (u s : string) :
  (MetadataCache.is_valid_for c u s = true
     ↔ MetadataCache.environment_url c = u
       ∧ MetadataCache.solution_name c = s
       ∧ MetadataCache.tables c ≠ [])
  ∧ MetadataCache.is_valid_for MetadataCache.default u s = false
  ∧ MetadataCache.is_valid_for
      (MetadataCache.mk (MetadataCache.environment_url c) (MetadataCache.solution_name c) []
         (MetadataCache.table_data c) (MetadataCache.table_forms c)
         (MetadataCache.table_views c) (MetadataCache.table_attributes c)) u s = false.
Proof.
  split; [|split].
  - unfold MetadataCache.is_valid_for.
    rewrite !andb_true_iff, !string_eqb_true, Nat.ltb_lt.
    destruct (MetadataCache.tables c) as [|t l]; simpl.
    + split; [lia | intros (_ & _ & H); congruence].
    + split; [intros [[-> ->] _]; done | intros (-> & -> & _); repeat split; lia].
  - unfold MetadataCache.is_valid_for. simpl. by rewrite andb_false_r.
  - unfold MetadataCache.is_valid_for. simpl. by rewrite andb_false_r.
Qed.

(** ** The view listing *)

Lemma public_view_spec (v : View.t) :
  DataverseClient.public_view v = true ↔ View.querytype v = Some 0%Z.
Proof. unfold DataverseClient.public_view. apply bool_decide_eq_true. Qed.

Lemma get_entity_views_of_public (value : list View.t) :
  Forall (λ v, View.querytype v = Some 0%Z) (DataverseClient.get_entity_views_of value).
Proof.
  unfold DataverseClient.get_entity_views_of.
  induction value as [|v value IH]; simpl; [constructor|].
  destruct (DataverseClient.public_view v) eqn:E; [|done].
  constructor; [by apply public_view_spec | done].
Qed.

Lemma find_some_elem {A} (P : A → bool) (l : list A) (x : A) :
  List.find P l = Some x → x ∈ l ∧ P x = true.
Proof.
  intros H. apply List.find_some in H as [H1 H2].
  split; [by apply list_elem_of_In | done].
Qed.

Lemma select_view_elem (views : list View.t) (saved : option string) (v : View.t) :
  select_view views saved = Some v → v ∈ views.
Proof.
  unfold select_view, default_view. destruct views as [|first rest]; [done|].
  destruct (List.find _ (first :: rest)) as [w|] eqn:E1.
  - intros [= <-]. by apply find_some_elem in E1 as [? _].
  - destruct (List.find View.isdefault (first :: rest)) as [w|] eqn:E2; simpl.
    + intros [= <-]. by apply find_some_elem in E2 as [? _].
    + intros [= <-]. left.
Qed.

(** C10. Every view that [get_entity_views] returns has [querytype] 0:
    the rows of other query types are dropped from the answer whatever
    their [isdefault] flag, so the view that the reconciler chooses from
    a listing (saved, default or first) is a public one. *)
Theorem get_entity_views_public (_get : result (list View.t)) (value : list View.t)
    (saved_view_id : option string) :
  match DataverseClient.get_entity_views _get with
  | Ok views =>
      Forall (λ v, View.querytype v = Some 0%Z) views
      ∧ ∃ value, _get = Ok value ∧ views = List.filter DataverseClient.public_view value
  | Raise e => _get = Raise e
  end
  ∧ match select_view (DataverseClient.get_entity_views_of value) saved_view_id with
    | Some v => View.querytype v = Some 0%Z ∧ v ∈ value
    | None => DataverseClient.get_entity_views_of value = []
    end.
Proof.
  split.
  - destruct _get as [val|e]; simpl; [|done].
    split; [apply get_entity_views_of_public | by exists val].
  - destruct (select_view _ saved_view_id) as [v|] eqn:E.
    + apply select_view_elem in E.
      split.
      * pose proof (get_entity_views_of_public value) as HF.
        rewrite Forall_forall in HF. by apply HF.
      * unfold DataverseClient.get_entity_views_of in E.
        apply list_elem_of_In, List.filter_In in E as [E _]. by apply list_elem_of_In.
    + unfold select_view in E.
      destruct (DataverseClient.get_entity_views_of value) as [|first rest]; [done|].
      by destruct (List.find _ (first :: rest)).
Qed.

(** A listing whose default view is not public: the default is not
    offered to the reconciler, which falls back to the public view. *)
Example private_default_view_is_dropped :
  let private := View.mk "V1" (Some "Quick find") true (Some 4%Z) in
  let public := View.mk "V2" (Some "Active") false (Some 0%Z) in
  select_view (DataverseClient.get_entity_views_of [private; public]) None = Some public.
Proof. reflexivity. Qed.

(** ** Persistence *)

Section PersistenceProps.

Variables (R J : Type) (default : R).
Variable os_path_exists : string → bool.
Variable open_read : string → result string.
Variable json_load : string → result J.
Variable from_kwargs : J → result R.
Variable os_makedirs : string → result unit.
Variable json_dump : R → result string.
Variable open_write : string → string → result unit.

Abbreviation load_ := (load R J default os_path_exists open_read json_load from_kwargs).
Abbreviation save_ := (save R os_makedirs json_dump open_write).
Abbreviation unreadable_ := (unreadable R J os_path_exists open_read json_load from_kwargs).
Abbreviation unwritable_ := (unwritable R os_makedirs json_dump open_write).

Lemma load_unreadable (path : string) (e : exn) :
  unreadable_ path e → load_ path = (Ok default, ["Warning: Could not load"]).
Proof.
  intros [Hex H]. unfold load, load_try. rewrite Hex.
  destruct H as [->|(f & -> & H)]; [done|]. simpl.
  destruct H as [->|(data & -> & H)]; [done|]. simpl.
  by rewrite H.
Qed.

Lemma save_unwritable (self : R) (path : string) (e : exn) :
  unwritable_ self path e → save_ self path = (Ok tt, self, ["Warning: Could not save"]).
Proof.
  unfold save, save_try.
  intros [->|[-> H]]; [done|]. simpl.
  destruct H as [->|(text & -> & H)]; [done|]. simpl.
  by rewrite H.
Qed.

(** C8. Whatever the file system, the JSON reader and the constructor
    do, [load] returns a record and [save] returns: a missing file gives
    the default record; a file that cannot be opened, parsed or turned
    into the record gives the default record and a warning; a write that
    fails gives a warning; and [save] leaves the record as it was. *)
Theorem load_save_never_raise (self : R) (path : string) :
  (∃ r, (load_ path).1 = Ok r)
  ∧ (os_path_exists path = false → load_ path = (Ok default, []))
  ∧ (∀ e, unreadable_ path e → load_ path = (Ok default, ["Warning: Could not load"]))
  ∧ (save_ self path).1 = (Ok tt, self)
  ∧ (∀ e, unwritable_ self path e →
          save_ self path = (Ok tt, self, ["Warning: Could not save"])).
Proof.
  repeat split.
  - unfold load. destruct (load_try _ _ _ _ _ _ _) as [[r|]|e]; simpl; eauto.
  - intros H. unfold load, load_try. by rewrite H.
  - apply load_unreadable.
  - unfold save. by destruct (save_try _ _ _ _ _ _).
  - apply save_unwritable.
Qed.

End PersistenceProps.

(** ** Running computations *)

Lemma bind_run {A B} (m : M A) (f : A → M B) (self : App) :
  (m ≫= f) self =
    match m self with
    | (Ok a, self') => f a self'
    | (Raise e, self') => (Raise e, self')
    end.
Proof. reflexivity. Qed.

(** One step of a computation after the other. *)
Ltac exec := repeat first [rewrite bind_run | progress simpl].

Lemma bind_ok {A B} (m : M A) (f : A → M B) (self self' : App) (a : A) :
  m self = (Ok a, self') → (m ≫= f) self = f a self'.
Proof. intros H. by rewrite bind_run, H. Qed.

Lemma keeps_ret {X A} (part : App → X) (a : A) : keeps part (mret a).
Proof. by intros self. Qed.

Lemma keeps_get {X} (part : App → X) : keeps part get.
Proof. by intros self. Qed.

Lemma keeps_lift {X A} (part : App → X) (r : result A) : keeps part (lift r).
Proof. by intros self. Qed.

Lemma keeps_modify {X} (part : App → X) (f : App → App) :
  (∀ self, part (f self) = part self) → keeps part (modify f).
Proof. intros H self. apply H. Qed.

Lemma keeps_bind {X A B} (part : App → X) (m : M A) (f : A → M B) :
  keeps part m → (∀ a, keeps part (f a)) → keeps part (m ≫= f).
Proof.
  intros Hm Hf self. rewrite bind_run.
  specialize (Hm self). destruct (m self) as [[a|e] self']; simpl in *.
  - by rewrite Hf.
  - done.
Qed.

Lemma keeps_when {X} (part : App → X) (b : bool) (m : M unit) :
  keeps part m → keeps part (when b m).
Proof. intros H. destruct b; [done | apply keeps_ret]. Qed.

Lemma keeps_for_each {X A} (part : App → X) (l : list A) (body : A → M unit) :
  (∀ x, keeps part (body x)) → keeps part (for_each l body).
Proof.
  intros H. induction l as [|x l IH]; simpl.
  - apply keeps_ret.
  - apply keeps_bind; [apply H | intros _; apply IH].
Qed.

(** A computation whose steps keep [part]: the rules above, by cases on
    what the computation branches on. *)
Ltac keeps_step :=
  match goal with
  | |- keeps _ (mret _) => apply keeps_ret
  | |- keeps _ get => apply keeps_get
  | |- keeps _ (lift _) => apply keeps_lift
  | |- keeps _ (_ ≫= _) => apply keeps_bind; [|intros ?]
  | |- keeps _ (when _ _) => apply keeps_when
  | |- keeps _ (for_each _ _) => apply keeps_for_each; intros ?
  | |- keeps _ (modify _) => apply keeps_modify; intros ?; try reflexivity
  | |- keeps _ (start _) => apply keeps_modify; intros ?; try reflexivity
  | |- keeps _ (if ?b then _ else _) => destruct b
  | |- keeps _ (match ?x with _ => _ end) => destruct x
  end.

Ltac keeps_auto := repeat keeps_step.

Lemma edit_row_keeps {X} (part : App → X) (k : string) (f : Tree.row → Tree.row) :
  (∀ tr self, part (set_selected_tree tr self) = part self) →
  keeps part (edit_row k f).
Proof. intros H. unfold edit_row. keeps_auto. apply H. Qed.

Lemma _update_attributes_display_keeps {X} (part : App → X) (k : string) :
  (∀ tr self, part (set_selected_tree tr self) = part self) →
  keeps part (_update_attributes_display k).
Proof.
  intros H. unfold _update_attributes_display. keeps_auto.
  by apply edit_row_keeps.
Qed.

Lemma _autosave_keeps {X} (part : App → X) :
  (∀ v self, part (set_settings v self) = part self) →
  (∀ v self, part (set_started v self) = part self) →
  keeps part _autosave.
Proof.
  intros H1 H2. unfold _autosave, _save_settings, start. keeps_auto.
  - apply H1.
  - apply H2.
Qed.

Lemma data_part_proj {X} (part : App → X) :
  (∀ a b c d e f g h i j k l m,
     part (mkApp a b c d e f g h i j k l m)
     = part (mkApp AppSettings.default MetadataCache.default c d e f g h i ∅ Tree.empty l [])) →
  data_part part.
Proof.
  intros H. repeat split; intros v [a b c d e f g h i j k l m]; cbn;
    (etrans; [apply H|]); symmetry; (etrans; [apply H|]); reflexivity.
Qed.

Ltac data_part_auto := apply data_part_proj; intros; reflexivity.

Lemma edit_row_data {X} (part : App → X) (k : string) (f : Tree.row → Tree.row) :
  data_part part → keeps part (edit_row k f).
Proof. intros (_ & _ & _ & H & _). by apply edit_row_keeps. Qed.

Lemma _update_attributes_display_data {X} (part : App → X) (k : string) :
  data_part part → keeps part (_update_attributes_display k).
Proof. intros (_ & _ & _ & H & _). by apply _update_attributes_display_keeps. Qed.

Lemma _autosave_data {X} (part : App → X) : data_part part → keeps part _autosave.
Proof. intros (H1 & _ & _ & _ & H2). by apply _autosave_keeps. Qed.

Lemma start_data {X} (part : App → X) (t : task) : data_part part → keeps part (start t).
Proof. intros (_ & _ & _ & _ & H). apply keeps_modify. intros self. apply H. Qed.

Lemma _save_cache_data {X} (part : App → X) : data_part part → keeps part _save_cache.
Proof.
  intros HD. pose proof HD as (_ & H & _). unfold _save_cache.
  keeps_auto; [apply H | by apply start_data].
Qed.

Lemma update_count_data {X} (part : App → X) (k : string) :
  data_part part → keeps part (update_count k).
Proof.
  intros HD. unfold update_count, selected_of. keeps_auto. by apply edit_row_data.
Qed.

Lemma forms_views_to_load_data {X} (part : App → X) (names acc : list string) :
  data_part part → keeps part (forms_views_to_load names acc).
Proof.
  intros HD. pose proof HD as (_ & _ & H & _).
  revert acc. induction names as [|k names IH]; intros acc; simpl.
  - apply keeps_ret.
  - keeps_auto; try apply IH. apply H.
Qed.

Lemma _load_forms_views_bulk_data {X} (part : App → X) (names : list string) :
  data_part part → keeps part (_load_forms_views_bulk names).
Proof.
  intros HD. unfold _load_forms_views_bulk.
  apply keeps_bind; [by apply forms_views_to_load_data|].
  intros [|x l]; [apply keeps_ret | by apply start_data].
Qed.

Lemma _on_selected_table_click_data {X} (part : App → X) :
  data_part part → keeps part _on_selected_table_click.
Proof.
  intros HD. unfold _on_selected_table_click. keeps_auto;
    first [by apply _load_forms_views_bulk_data | by apply _update_attributes_display_data].
Qed.

Create HintDb keeps_db.

#[export] Hint Resolve edit_row_data _update_attributes_display_data _autosave_data
  start_data _save_cache_data update_count_data _load_forms_views_bulk_data
  _on_selected_table_click_data : keeps_db.

Ltac keeps_data := keeps_auto; try (by eauto with keeps_db).

(** The part of the object after [m] is the part before. *)
Ltac by_keeps :=
  match goal with
  | |- ?part (?m ?s).2 = _ =>
      let HK := fresh "HK" in enough (keeps part m) as HK by apply HK
  end.

Lemma modify_then {X A} (part : App → X) (f : App → App) (m : M A) (self : App) :
  keeps part m → part ((modify f ;; m) self).2 = part (f self).
Proof. intros H. rewrite bind_run. simpl. apply H. Qed.

(** ** Load requests *)

Lemma _load_attributes_for_table_loading (self : App) (k : string) (state : LoadState.t) :
  table_load_state self !! k = Some state →
  LoadState.attrs_loading state = true →
  _load_attributes_for_table k self = (Ok tt, self).
Proof. intros H1 H2. unfold _load_attributes_for_table. rewrite bind_run. simpl. by rewrite H1, H2. Qed.

Lemma _load_attributes_for_table_starts (self : App) (k : string) (state : LoadState.t) :
  table_load_state self !! k = Some state →
  LoadState.attrs_loading state = false →
  _load_attributes_for_table k self =
    (Ok tt,
     set_started (started self ++ [load_attributes k])
       (set_table_load_state (<[k := set_attrs_loading true state]> (table_load_state self)) self)).
Proof. intros H1 H2. unfold _load_attributes_for_table. rewrite bind_run. simpl. by rewrite H1, H2. Qed.

Lemma _load_forms_views_for_table_guard (self : App) (k : string) (state : LoadState.t) :
  table_load_state self !! k = Some state →
  LoadState.forms_loading state || LoadState.views_loading state
  || LoadState.forms_loaded state && LoadState.views_loaded state = true →
  _load_forms_views_for_table k self = (Ok tt, self).
Proof.
  intros H1 H2. unfold _load_forms_views_for_table. rewrite bind_run. simpl. rewrite H1.
  destruct (LoadState.forms_loading state || LoadState.views_loading state); [done|].
  simpl in H2. by rewrite H2.
Qed.

Lemma _load_forms_views_bulk_guard (self : App) (k : string) (state : LoadState.t) :
  table_load_state self !! k = Some state →
  LoadState.forms_loading state || LoadState.forms_loaded state = true →
  _load_forms_views_bulk [k] self = (Ok tt, self).
Proof.
  intros H1 H2. unfold _load_forms_views_bulk. rewrite bind_run. simpl.
  rewrite bind_run. simpl. rewrite H1. simpl.
  by destruct (LoadState.forms_loaded state), (LoadState.forms_loading state).
Qed.

Lemma _on_attributes_loaded_snapshot (self : App) (k : string) (attributes : list Attribute.t) :
  is_Some (selected_tables self !! k) →
  table_attributes (_on_attributes_loaded k attributes self).2
  = <[k := attributes]> (table_attributes self).
Proof.
  intros H. unfold _on_attributes_loaded. rewrite bind_run. simpl.
  rewrite bool_decide_eq_true_2 by done. simpl.
  assert (data_part table_attributes) as HD by data_part_auto.
  rewrite (modify_then table_attributes); [done|].
  unfold selected_of. keeps_data.
Qed.

(** C9 (as the code has it). A load request for a key that is loading is
    a no-op for both kinds: the object is unchanged and no task starts.
    For attributes, a request for a key that is not loading, loaded or
    not, starts one fetch and sets only that key's [attrs_loading]; when
    the fetch completes, only that key's attribute listing is replaced.
    For forms and views, a request for a key whose forms and views are
    loaded is a no-op as well: nothing is fetched again. *)
Theorem load_request_guards (self : App) (k : string) (state : LoadState.t)
    (Hstate : table_load_state self !! k = Some state) :
  (LoadState.attrs_loading state = true →
     _load_attributes_for_table k self = (Ok tt, self))
  ∧ (LoadState.forms_loading state = true ∨ LoadState.views_loading state = true →
     _load_forms_views_for_table k self = (Ok tt, self))
  ∧ (LoadState.attrs_loading state = false →
     let requested :=
       set_started (started self ++ [load_attributes k])
         (set_table_load_state
            (<[k := set_attrs_loading true state]> (table_load_state self)) self) in
     _load_attributes_for_table k self = (Ok tt, requested)
     ∧ ∀ attributes,
         is_Some (selected_tables self !! k) →
         table_attributes (state_of (_on_attributes_loaded k attributes) requested)
         = <[k := attributes]> (table_attributes self))
  ∧ (LoadState.forms_loaded state = true → LoadState.views_loaded state = true →
     _load_forms_views_for_table k self = (Ok tt, self)
     ∧ _load_forms_views_bulk [k] self = (Ok tt, self)).
Proof.
  repeat split.
  - by apply _load_attributes_for_table_loading.
  - intros H. apply (_load_forms_views_for_table_guard self k state Hstate).
    destruct H as [-> | ->]; [done | by rewrite orb_true_r].
  - by apply _load_attributes_for_table_starts.
  - intros attributes Hk. unfold state_of.
    by rewrite _on_attributes_loaded_snapshot.
  - apply (_load_forms_views_for_table_guard self k state Hstate).
    rewrite H, H0. by rewrite !orb_true_r.
  - apply (_load_forms_views_bulk_guard self k state Hstate).
    rewrite H. by rewrite orb_true_r.
Qed.

Lemma load_request_guards_witness :
  table_load_state account_loaded !! "account"
    = Some (LoadState.mk true true true false false false)
  ∧ _load_forms_views_for_table "account" account_loaded = (Ok tt, account_loaded)
  ∧ _load_forms_views_bulk ["account"] account_loaded = (Ok tt, account_loaded).
Proof.
  assert (table_load_state account_loaded !! "account"
          = Some (LoadState.mk true true true false false false)) as H
    by (vm_compute; reflexivity).
  split; [exact H|].
  destruct (load_request_guards account_loaded "account" _ H) as (_ & _ & _ & H4).
  apply H4; reflexivity.
Defined.

(** C9 as written fails for forms and views: [account] has its
    forms and views loaded and none is loading; the request leaves the
    object as it is and starts no fetch. *)
Lemma loaded_forms_views_not_refreshed :
  table_load_state account_loaded !! "account"
    = Some (LoadState.mk true true true false false false)
  ∧ _load_forms_views_for_table "account" account_loaded = (Ok tt, account_loaded)
  ∧ (load_forms_views "account"
       ∉ started (state_of (_load_forms_views_for_table "account") account_loaded))
  ∧ started (state_of (_load_forms_views_bulk ["account"]) account_loaded)
    = started account_loaded.
Proof.
  assert (table_load_state account_loaded !! "account"
          = Some (LoadState.mk true true true false false false)) as H
    by (vm_compute; reflexivity).
  assert (_load_forms_views_for_table "account" account_loaded = (Ok tt, account_loaded)) as H1
    by (apply (_load_forms_views_for_table_guard _ _ _ H); reflexivity).
  assert (_load_forms_views_bulk ["account"] account_loaded = (Ok tt, account_loaded)) as H2
    by (apply (_load_forms_views_bulk_guard _ _ _ H); reflexivity).
  split; [exact H|]. split; [exact H1|]. split.
  - unfold state_of. rewrite H1. simpl.
    remember (started account_loaded) as l eqn:E. vm_compute in E. subst l.
    intros Hin.
    repeat (apply elem_of_cons in Hin as [Hin|Hin]; [discriminate|]).
    by apply elem_of_nil in Hin.
  - unfold state_of. rewrite H2. reflexivity.
Qed.

(** ** Completions that arrive for a table that is not selected *)








(** ** Required attributes stay selected *)






Lemma _get_required_attributes_ext (self self' : App) (k : string) :
  selected_tables self' = selected_tables self →
  _get_required_attributes self' k = _get_required_attributes self k.
Proof. intros H. unfold _get_required_attributes. by rewrite H. Qed.


























(** ** The rows of the tree *)

Lemma lookup_update_row (k k' : string) (r : Tree.row) (l : list (string * Tree.row)) :
  Tree.lookup_row k' (Tree.update_row k r l)
  = if decide (k = k') then (λ _, r) <$> Tree.lookup_row k l else Tree.lookup_row k' l.
Proof.
  induction l as [|[k0 r0] l IH]; simpl.
  - by case_decide.
  - destruct (String.eqb k0 k) eqn:E1; simpl.
    + apply String.eqb_eq in E1 as ->.
      case_decide as Hd.
      * subst. by rewrite String.eqb_refl.
      * destruct (String.eqb k k') eqn:E2; [by apply String.eqb_eq in E2|done].
    + destruct (String.eqb k0 k') eqn:E2.
      * apply String.eqb_eq in E2 as ->.
        case_decide as Hd; [|done]. subst. by rewrite String.eqb_refl in E1.
      * done.
Qed.

Lemma update_row_keys (k : string) (r : Tree.row) (l : list (string * Tree.row)) :
  (Tree.update_row k r l).*1 = l.*1.
Proof.
  induction l as [|[k0 r0] l IH]; simpl; [done|].
  destruct (String.eqb k0 k); simpl; [done | f_equal; exact IH].
Qed.

Lemma edit_row_run (self : App) (k : string) (f : Tree.row → Tree.row) (r : Tree.row) :
  Tree.lookup_row k (Tree.rows (selected_tree self)) = Some r →
  edit_row k f self =
    (Ok tt,
     set_selected_tree
       (Tree.mk (Tree.update_row k (f r) (Tree.rows (selected_tree self)))
                (Tree.selection (selected_tree self))) self).
Proof.
  intros H. unfold edit_row. rewrite bind_run. simpl.
  rewrite bind_run. unfold lift, Tree.item. rewrite H.
  rewrite bind_run. unfold Tree.set_item. by rewrite H.
Qed.

Lemma lookup_row_is_Some (k : string) (l : list (string * Tree.row)) :
  is_Some (Tree.lookup_row k l) ↔ k ∈ l.*1.
Proof.
  induction l as [|[k0 r0] l IH]; simpl.
  - split; [by intros [? ?] | by intros ?%elem_of_nil].
  - destruct (String.eqb k0 k) eqn:E.
    + apply String.eqb_eq in E as ->. split; [left | by eauto].
    + rewrite IH. split; [by right|].
      intros [->|?]%elem_of_cons; [by rewrite String.eqb_refl in E | done].
Qed.

Lemma same_choices_refl (tr : Tree.t) : same_choices tr tr.
Proof. by repeat split. Qed.

Lemma same_choices_trans (tr1 tr2 tr3 : Tree.t) :
  same_choices tr1 tr2 → same_choices tr2 tr3 → same_choices tr1 tr3.
Proof.
  intros (H1 & H3) (H1' & H3'). split; [congruence|].
  intros k. destruct (H3 k), (H3' k). split; congruence.
Qed.

Lemma same_choices_cover (self self' : App) :
  selected_tables self' = selected_tables self →
  same_choices (selected_tree self) (selected_tree self') →
  rows_cover self → rows_cover self'.
Proof.
  intros HT (HK & _) HC k Hk. rewrite HT in Hk.
  apply lookup_row_is_Some. rewrite HK. apply lookup_row_is_Some. by apply HC.
Qed.

Lemma same_choices_count (tr : Tree.t) (k : string) (n : nat) (r : Tree.row) :
  Tree.lookup_row k (Tree.rows tr) = Some r →
  same_choices tr (Tree.mk (Tree.update_row k (set_values_3 n r) (Tree.rows tr))
                           (Tree.selection tr)).
Proof.
  intros Hr. split; [apply update_row_keys|].
  intros k'. simpl. rewrite lookup_update_row. case_decide; [|done]. subst.
  by rewrite Hr.
Qed.

(** [_update_attributes_display] returns when every selected table has
    its row, and changes the count column only. *)
Lemma _update_attributes_display_ok (self : App) (k : string) :
  rows_cover self →
  ∃ tr, _update_attributes_display k self = (Ok tt, set_selected_tree tr self)
        ∧ same_choices (selected_tree self) tr.
Proof.
  intros HC. unfold _update_attributes_display. rewrite bind_run. simpl.
  case_bool_decide as Hk; simpl.
  - destruct (HC k Hk) as [r Hr]. rewrite (edit_row_run _ _ _ r Hr).
    eexists. split; [done|]. by apply same_choices_count.
  - exists (selected_tree self). split; [|apply same_choices_refl].
    by destruct self.
Qed.

Lemma update_count_ok (self : App) (k : string) :
  rows_cover self → is_Some (selected_attributes self !! k) →
  ∃ tr, update_count k self = (Ok tt, set_selected_tree tr self)
        ∧ same_choices (selected_tree self) tr.
Proof.
  intros HC [s Hs]. unfold update_count. rewrite bind_run. simpl.
  case_bool_decide as Hk; simpl.
  - unfold selected_of. exec. unfold subscript. rewrite Hs.
    destruct (HC k Hk) as [r Hr]. rewrite (edit_row_run _ _ _ r Hr).
    eexists. split; [done|]. by apply same_choices_count.
  - exists (selected_tree self). split; [|apply same_choices_refl].
    by destruct self.
Qed.

Lemma tidy_ret {A} (a : A) : tidy (mret a).
Proof. intros self _. exists a, self. split; [done|]. split; [done|apply same_choices_refl]. Qed.

Lemma tidy_bind {A B} (m : M A) (f : A → M B) :
  tidy m → (∀ a, tidy (f a)) → tidy (m ≫= f).
Proof.
  intros Hm Hf self HC.
  destruct (Hm self HC) as (a & self1 & E1 & HT1 & HS1).
  assert (rows_cover self1) as HC1 by (by apply (same_choices_cover self)).
  destruct (Hf a self1 HC1) as (b & self2 & E2 & HT2 & HS2).
  exists b, self2. rewrite (bind_ok _ _ _ _ _ E1). split; [done|].
  split; [congruence | by apply (same_choices_trans _ (selected_tree self1))].
Qed.

Lemma tidy_modify (f : App → App) :
  (∀ self, selected_tables (f self) = selected_tables self) →
  (∀ self, Tree.rows (selected_tree (f self)) = Tree.rows (selected_tree self)) →
  tidy (modify f).
Proof.
  intros H1 H2 self _. exists tt, (f self). split; [done|]. split; [done|].
  split; by rewrite H2.
Qed.

Lemma tidy_when (b : bool) (m : M unit) : tidy m → tidy (when b m).
Proof. intros H. destruct b; [done | apply tidy_ret]. Qed.

Lemma tidy_display (k : string) : tidy (_update_attributes_display k).
Proof.
  intros self HC. destruct (_update_attributes_display_ok self k HC) as (tr & E & HS).
  by exists tt, (set_selected_tree tr self).
Qed.

Lemma tidy_start (t : task) : tidy (start t).
Proof. by apply tidy_modify. Qed.

Lemma tidy_autosave : tidy _autosave.
Proof.
  unfold _autosave, _save_settings.
  apply tidy_bind; [by apply tidy_modify | intros _; apply tidy_start].
Qed.

Lemma tidy_save_cache : tidy _save_cache.
Proof.
  intros self HC. unfold _save_cache. exec.
  destruct (negb _ || negb _); [by apply tidy_ret|].
  refine (tidy_bind _ _ _ _ self HC); [by apply tidy_modify | intros _; apply tidy_start].
Qed.

Lemma tidy_forms_views_to_load (names acc : list string) :
  tidy (forms_views_to_load names acc).
Proof.
  revert acc. induction names as [|k names IH]; intros acc; simpl; [apply tidy_ret|].
  intros self HC. exec.
  destruct (negb _ && negb _); [|by apply IH].
  refine (tidy_bind _ _ _ _ self HC); [|intros _; apply IH].
  destruct (table_load_state self !! k); [|by apply tidy_ret].
  by apply tidy_modify.
Qed.

Lemma tidy_load_forms_views_bulk (names : list string) : tidy (_load_forms_views_bulk names).
Proof.
  unfold _load_forms_views_bulk. apply tidy_bind; [apply tidy_forms_views_to_load|].
  intros [|x l]; [apply tidy_ret | apply tidy_start].
Qed.

Lemma tidy_click : tidy _on_selected_table_click.
Proof.
  intros self HC. unfold _on_selected_table_click. exec.
  destruct (Tree.selection (selected_tree self)) as [|k rest]; [by apply tidy_ret|].
  case_bool_decide; [|by apply tidy_ret].
  refine (tidy_bind _ _ _ _ self HC); [|intros _; apply tidy_display].
  apply tidy_when, tidy_load_forms_views_bulk.
Qed.

Lemma tidy_select_first (child : string) :
  tidy (modify (λ self, set_selected_tree (Tree.selection_set (selected_tree self) child) self)).
Proof. by apply tidy_modify. Qed.

(** ** Loops over a dictionary of results *)

Lemma for_each_other {V} (I Post : App → Prop) (l : list (string * V))
    (body : string * V → M unit) (k : string) :
  k ∉ l.*1 →
  (∀ x self, x ∈ l → I self →
     ∃ self', body x self = (Ok tt, self') ∧ I self' ∧ (x.1 ≠ k → Post self → Post self')) →
  ∀ self, I self → Post self →
    ∃ self', for_each l body self = (Ok tt, self') ∧ I self' ∧ Post self'.
Proof.
  induction l as [|x l IH]; intros Hk Hbody self HI HP; simpl.
  - by exists self.
  - destruct (Hbody x self) as (self1 & E1 & HI1 & HP1); [left|done|].
    rewrite (bind_ok _ _ _ _ _ E1).
    apply IH; try done.
    + intros Hin. apply Hk. rewrite fmap_cons. apply elem_of_cons. by right.
    + intros y s Hy. apply Hbody. by right.
    + apply HP1; [|done]. intros Hx. apply Hk. rewrite fmap_cons.
      apply elem_of_cons. by left.
Qed.

Lemma for_each_key {V} (I Pre Post : App → Prop) (l : list (string * V))
    (body : string * V → M unit) (k : string) (v : V) :
  NoDup l.*1 → (k, v) ∈ l →
  (∀ x self, x ∈ l → I self →
     ∃ self', body x self = (Ok tt, self') ∧ I self'
       ∧ (x.1 ≠ k → Pre self → Pre self')
       ∧ (x.1 ≠ k → Post self → Post self')
       ∧ (x = (k, v) → Pre self → Post self')) →
  ∀ self, I self → Pre self →
    ∃ self', for_each l body self = (Ok tt, self') ∧ I self' ∧ Post self'.
Proof.
  induction l as [|x l IH]; intros Hnd Hin Hbody self HI HP; simpl.
  - by apply elem_of_nil in Hin.
  - rewrite fmap_cons in Hnd. apply NoDup_cons in Hnd as [Hx Hnd].
    destruct (Hbody x self) as (self1 & E1 & HI1 & Hpre & Hpost & Hkv); [left|done|].
    rewrite (bind_ok _ _ _ _ _ E1).
    apply elem_of_cons in Hin as [Heq|Hin].
    + subst x. apply (for_each_other I Post l body k); try done.
      * intros y s Hy Hs. destruct (Hbody y s) as (s' & ? & ? & _ & ? & _); [by right|done|].
        by exists s'.
      * by apply Hkv.
    + apply IH; try done.
      * intros y s Hy. apply Hbody. by right.
      * apply Hpre; [|done]. intros Hxk. apply Hx.
        rewrite Hxk. apply list_elem_of_fmap. by exists (k, v).
Qed.

Lemma alter_as_insert {V} (f : V → V) (k : string) (m : gmap string V) :
  match m !! k with Some x => <[k := f x]> m | None => m end = alter f k m.
Proof.
  apply map_eq. intros k'. destruct (m !! k) as [x|] eqn:E.
  - destruct (decide (k = k')) as [->|Hne].
    + by rewrite lookup_insert_eq, lookup_alter_eq, E.
    + by rewrite lookup_insert_ne, lookup_alter_ne.
  - destruct (decide (k = k')) as [->|Hne].
    + by rewrite lookup_alter_eq, E.
    + by rewrite lookup_alter_ne.
Qed.

(** One result of the bulk attribute load applied: what it writes for
    its table and what it leaves. *)
Lemma apply_attributes_ok (self : App) (k : string) (attributes : list Attribute.t) :
  rows_cover self →
  ∃ self', apply_attributes (k, attributes) self = (Ok tt, self')
    ∧ selected_tables self' = selected_tables self
    ∧ settings self' = settings self
    ∧ same_choices (selected_tree self) (selected_tree self')
    ∧ (is_Some (selected_tables self !! k) →
         table_attributes self' = <[k := attributes]> (table_attributes self)
         ∧ selected_attributes self' =
             <[k := restore_saved_attrs (AppSettings.table_attributes (settings self) !! k)
                      attributes (_get_required_attributes self k)]> (selected_attributes self)
         ∧ table_load_state self' = alter set_attrs_loaded k (table_load_state self))
    ∧ (selected_tables self !! k = None → self' = self).
Proof.
  intros HC. unfold apply_attributes. exec.
  case_bool_decide as Hk; simpl.
  - destruct (table_load_state self !! k) as [state|] eqn:Est; exec.
    all: match goal with
         | |- ∃ _, update_count ?k0 ?s = _ ∧ _ =>
             destruct (update_count_ok s k0) as (tr & E2 & HS);
               [done | simpl; rewrite lookup_insert_eq; by eexists |]
         end.
    all: rewrite E2; eexists; (split; [done|]); simpl.
    all: repeat split; try done; try apply HS.
    all: try (intros Hn; rewrite Hn in Hk; by destruct Hk).
    all: rewrite <- alter_as_insert; by rewrite Est.
  - exists self. by repeat split.
Qed.

(** ** The attribute flags are written by attribute loads only *)

Lemma attrs_flags_forms_views (self : App) (k : string) (st : LoadState.t) (b : bool) :
  table_load_state self !! k = Some st →
  attrs_flags (set_table_load_state
                 (<[k := set_forms_views_loading b st]> (table_load_state self)) self)
  = attrs_flags self.
Proof.
  intros H. unfold attrs_flags. simpl. rewrite fmap_insert. simpl.
  apply insert_id. by rewrite lookup_fmap, H.
Qed.

Lemma forms_views_to_load_flags (names acc : list string) :
  keeps attrs_flags (forms_views_to_load names acc).
Proof.
  revert acc. induction names as [|k names IH]; intros acc; simpl; [apply keeps_ret|].
  intros self. exec.
  destruct (negb _ && negb _); [|apply IH].
  destruct (table_load_state self !! k) as [st|] eqn:E; exec.
  - rewrite IH. by apply attrs_flags_forms_views.
  - apply IH.
Qed.

Lemma _load_forms_views_bulk_flags (names : list string) :
  keeps attrs_flags (_load_forms_views_bulk names).
Proof.
  unfold _load_forms_views_bulk. apply keeps_bind; [apply forms_views_to_load_flags|].
  intros [|x l]; [apply keeps_ret | by apply keeps_modify].
Qed.

Lemma _update_attributes_display_flags (k : string) :
  keeps attrs_flags (_update_attributes_display k).
Proof. by apply _update_attributes_display_keeps. Qed.

Lemma _autosave_flags : keeps attrs_flags _autosave.
Proof. by apply _autosave_keeps. Qed.

Lemma _on_selected_table_click_flags : keeps attrs_flags _on_selected_table_click.
Proof.
  unfold _on_selected_table_click. keeps_auto;
    first [apply _load_forms_views_bulk_flags | apply _update_attributes_display_flags].
Qed.

Lemma attrs_flags_lookup (self : App) (k : string) :
  attrs_flags self !! k
  = (λ st, (LoadState.attrs_loaded st, LoadState.attrs_loading st)) <$> table_load_state self !! k.
Proof. unfold attrs_flags. by rewrite lookup_fmap. Qed.

(** ** The bulk attribute load applied *)

Lemma _on_bulk_attributes_loaded_ok (self : App) (results : list (string * list Attribute.t))
    (k : string) (attributes : list Attribute.t) :
  rows_cover self → NoDup results.*1 → (k, attributes) ∈ results →
  is_Some (selected_tables self !! k) →
  ∃ self', _on_bulk_attributes_loaded results self = (Ok tt, self')
    ∧ table_attributes self' !! k = Some attributes
    ∧ selected_attributes self' !! k =
        Some (restore_saved_attrs (AppSettings.table_attributes (settings self) !! k)
                attributes (_get_required_attributes self k))
    ∧ attrs_flags self' !! k = (λ _, (true, false)) <$> table_load_state self !! k.
Proof.
  intros HC Hnd Hin Hk. unfold _on_bulk_attributes_loaded.
  set (I := λ s : App, rows_cover s ∧ selected_tables s = selected_tables self
                       ∧ settings s = settings self).
  set (Pre := λ s : App, table_load_state s !! k = table_load_state self !! k).
  set (Post := λ s : App,
         table_attributes s !! k = Some attributes
         ∧ selected_attributes s !! k =
             Some (restore_saved_attrs (AppSettings.table_attributes (settings self) !! k)
                     attributes (_get_required_attributes self k))
         ∧ attrs_flags s !! k = (λ _, (true, false)) <$> table_load_state self !! k).
  destruct (for_each_key I Pre Post results apply_attributes k attributes Hnd Hin)
    with (self := self) as (self1 & E1 & (HC1 & HT1 & HS1) & HP1); [|done|done|].
  { intros [k' attrs'] s Hx (HCs & HTs & HSs).
    destruct (apply_attributes_ok s k' attrs' HCs) as (s' & E & HT & HS & Hch & Hsel & Hno).
    exists s'. split; [done|]. split.
    { split; [by apply (same_choices_cover s)|]. split; congruence. }
    destruct (selected_tables s !! k') as [t|] eqn:Et.
    - destruct Hsel as (Ha & Hs & Hl); [done|]. simpl.
      split; [|split].
      + intros Hne. unfold Pre. rewrite Hl. by rewrite lookup_alter_ne.
      + intros Hne (P1 & P2 & P3). unfold Post.
        rewrite Ha, Hs, attrs_flags_lookup, Hl.
        rewrite !lookup_insert_ne, lookup_alter_ne by done.
        by rewrite <- attrs_flags_lookup.
      + intros [= -> ->] HPre. unfold Post.
        rewrite Ha, Hs, attrs_flags_lookup, Hl, !lookup_insert_eq, lookup_alter_eq.
        rewrite HSs, HPre, (_get_required_attributes_ext self s) by done.
        split; [done|]. split; [done|].
        by destruct (table_load_state self !! k).
    - rewrite (Hno eq_refl). split; [done|]. split; [done|].
      intros [= -> ->]. rewrite HTs in Et. rewrite Et in Hk. by destruct Hk. }
  rewrite (bind_ok _ _ _ _ _ E1).
  assert (tidy (self ← get;
                match Tree.selection (selected_tree self) with
                | [] => mret ()
                | first :: _ =>
                    when (bool_decide (first ∈ results.*1)) (_update_attributes_display first)
                end ;; _load_forms_views_bulk results.*1 ;; _autosave)) as Htidy.
  { intros s Hs. exec.
    refine (tidy_bind _ _ _ _ s Hs).
    - destruct (Tree.selection (selected_tree s)); [apply tidy_ret|].
      apply tidy_when, tidy_display.
    - intros _. apply tidy_bind; [apply tidy_load_forms_views_bulk|intros _; apply tidy_autosave]. }
  destruct (Htidy self1 HC1) as ([] & self2 & E2 & _ & _).
  exists self2. split; [done|].
  assert (self2 = (((self ← get;
                match Tree.selection (selected_tree self) with
                | [] => mret ()
                | first :: _ =>
                    when (bool_decide (first ∈ results.*1)) (_update_attributes_display first)
                end ;; _load_forms_views_bulk results.*1 ;; _autosave)) self1).2) as ->
    by (by rewrite E2).
  destruct HP1 as (P1 & P2 & P3).
  assert (data_part table_attributes) as HD1 by data_part_auto.
  assert (data_part selected_attributes) as HD2 by data_part_auto.
  split; [|split].
  - rewrite <- P1. f_equal. by_keeps. keeps_data.
  - rewrite <- P2. f_equal. by_keeps. keeps_data.
  - rewrite <- P3. f_equal. by_keeps.
    keeps_auto; first [apply _update_attributes_display_flags
                      | apply _load_forms_views_bulk_flags | apply _autosave_flags].
Qed.

(** ** The single attribute load applied *)

Lemma _on_attributes_loaded_ok (self : App) (k : string) (attributes : list Attribute.t)
    (st : LoadState.t) (s : gset string) :
  rows_cover self → is_Some (selected_tables self !! k) →
  table_load_state self !! k = Some st →
  selected_attributes self !! k = Some s →
  ∃ self', _on_attributes_loaded k attributes self = (Ok tt, self')
    ∧ table_attributes self' !! k = Some attributes
    ∧ selected_attributes self' !! k =
        Some (restore_saved_attrs (AppSettings.table_attributes (settings self) !! k)
                attributes (s ∪ _get_required_attributes self k))
    ∧ attrs_flags self' !! k = Some (true, false).
Proof.
  intros HC Hk Hst Hs. unfold _on_attributes_loaded. exec.
  rewrite bool_decide_eq_true_2 by done. exec.
  unfold subscript at 1. rewrite Hst. exec.
  unfold selected_of. exec. unfold subscript. simpl. rewrite Hs. exec.
  match goal with |- context [update_count k ?s1] => set (self1 := s1) end.
  match goal with |- context [get ≫= ?f] => set (tail := get ≫= f) end.
  destruct (update_count_ok self1 k) as (tr & E1 & HS1);
    [done | unfold self1; simpl; rewrite lookup_insert_eq; by eexists |].
  rewrite E1.
  assert (rows_cover (set_selected_tree tr self1)) as HC2
    by (by apply (same_choices_cover self1)).
  assert (tidy tail) as Htidy.
  { intros s0 Hs0. unfold tail. exec. refine (tidy_bind _ _ _ _ s0 Hs0).
    - destruct (Tree.selection (selected_tree s0)).
      + destruct (Tree.get_children (selected_tree s0)); [apply tidy_ret|].
        apply tidy_bind; [apply tidy_select_first | intros _; apply tidy_click].
      + apply tidy_when, tidy_display.
    - intros _. apply tidy_bind; [apply tidy_load_forms_views_bulk|intros _; apply tidy_autosave]. }
  destruct (Htidy _ HC2) as ([] & self2 & E2 & _ & _).
  exists self2. split; [done|].
  assert (self2 = (tail (set_selected_tree tr self1)).2) as -> by (by rewrite E2).
  assert (data_part table_attributes) as HD1 by data_part_auto.
  assert (data_part selected_attributes) as HD2 by data_part_auto.
  assert (keeps table_attributes tail) as K1 by (unfold tail; keeps_data).
  assert (keeps selected_attributes tail) as K2 by (unfold tail; keeps_data).
  assert (keeps attrs_flags tail) as K3.
  { unfold tail. keeps_auto;
      first [apply _update_attributes_display_flags | apply _on_selected_table_click_flags
            | apply _load_forms_views_bulk_flags | apply _autosave_flags]. }
  rewrite K1, K2, K3. unfold self1. simpl.
  rewrite attrs_flags_lookup. simpl. by rewrite !lookup_insert_eq.
Qed.

(** ** Saved attribute selections *)

(** C2 (as the code has it). When the settings hold a non-empty saved
    selection for a table, applying a fetched attribute list adds every
    saved key to the selection, whether the fetched list has it or not,
    and returns without raising: after the bulk load the selection is
    the required attributes and the saved keys, after the single load it
    is what was selected before, the required attributes and the saved
    keys. *)
Theorem saved_attributes_restored (self : App) (k x : string) (l : list string)
    (Hrows : rows_cover self)
    (Hk : is_Some (selected_tables self !! k))
    (Hsaved : AppSettings.table_attributes (settings self) !! k = Some (x :: l)) :
  (∀ results attributes,
     NoDup results.*1 → (k, attributes) ∈ results →
     ∃ self', _on_bulk_attributes_loaded results self = (Ok tt, self')
       ∧ selected_attributes self' !! k
         = Some (_get_required_attributes self k ∪ list_to_set (x :: l)))
  ∧ (∀ attributes st s,
       table_load_state self !! k = Some st →
       selected_attributes self !! k = Some s →
       ∃ self', _on_attributes_loaded k attributes self = (Ok tt, self')
         ∧ selected_attributes self' !! k
           = Some (s ∪ _get_required_attributes self k ∪ list_to_set (x :: l))).
Proof.
  split.
  - intros results attributes Hnd Hin.
    destruct (_on_bulk_attributes_loaded_ok self results k attributes)
      as (self' & E & _ & Hs & _); try done.
    exists self'. split; [done|]. by rewrite Hs, Hsaved.
  - intros attributes st s Hst Hs.
    destruct (_on_attributes_loaded_ok self k attributes st s)
      as (self' & E & _ & Hs' & _); try done.
    exists self'. split; [done|]. by rewrite Hs', Hsaved.
Qed.

Lemma rows_cover_entity_added : rows_cover (state_of (_add_tables_bulk [entity]) saved_session).
Proof.
  intros k [t Ht]. apply lookup_row_is_Some.
  assert (selected_tables (state_of (_add_tables_bulk [entity]) saved_session)
          = {["entity" := entity]}) as E by (vm_compute; reflexivity).
  rewrite E in Ht. apply lookup_singleton_Some in Ht as [<- _].
  vm_compute. left.
Qed.

Lemma saved_attributes_restored_witness :
  ∃ self',
    _on_bulk_attributes_loaded [("entity", entity_attributes)]
      (state_of (_add_tables_bulk [entity]) saved_session) = (Ok tt, self')
    ∧ selected_attributes self' !! "entity"
      = Some (_get_required_attributes (state_of (_add_tables_bulk [entity]) saved_session)
                "entity" ∪ list_to_set ["id"; "custom_field"]).
Proof.
  assert (is_Some (selected_tables (state_of (_add_tables_bulk [entity]) saved_session)
                     !! "entity")) as Hk by (vm_compute; eauto).
  assert (AppSettings.table_attributes
            (settings (state_of (_add_tables_bulk [entity]) saved_session)) !! "entity"
          = Some ["id"; "custom_field"]) as Hsaved by (vm_compute; reflexivity).
  destruct (saved_attributes_restored _ "entity" "id" ["custom_field"]
              rows_cover_entity_added Hk Hsaved) as [H _].
  apply (H [("entity", entity_attributes)] entity_attributes).
  - apply NoDup_singleton.
  - left.
Defined.

(** C2 as written fails on its own scenario: the saved selection
    is [id] and [custom_field], the fetched attributes have no
    [custom_field], and the selection that results still has it. *)
Lemma stale_saved_attribute_is_kept :
  Attribute.LogicalName <$> entity_attributes = ["id"; "name"; "createdon"]
  ∧ AppSettings.table_attributes (settings saved_session) !! "entity"
    = Some ["id"; "custom_field"]
  ∧ selected_attributes entity_loaded_bulk !! "entity"
    = Some {["id"; "name"; "custom_field"]}
  ∧ selected_attributes entity_loaded_alone !! "entity"
    = Some {["id"; "name"; "custom_field"]}
  ∧ ({["id"; "name"; "custom_field"]} : gset string) ≠ {["id"; "name"]}.
Proof.
  split; [reflexivity|]. split; [vm_compute; reflexivity|].
  split; [vm_compute; reflexivity|]. split; [vm_compute; reflexivity|].
  intros H. assert ("custom_field" ∈ ({["id"; "name"]} : gset string)) as Hin
    by (rewrite <- H; set_solver).
  set_solver.
Qed.

(** ** The bulk attribute load as a batch *)

Lemma dict_get_set {V} (k k' : string) (v : V) (d : list (string * V)) :
  dict_get k' (dict_set k v d) = if decide (k = k') then Some v else dict_get k' d.
Proof.
  induction d as [|[k0 v0] d IH]; simpl.
  - destruct (String.eqb k k') eqn:E; case_decide; try done.
    + by apply String.eqb_eq in E.
    + subst. by rewrite String.eqb_refl in E.
  - destruct (String.eqb k0 k) eqn:E1; simpl.
    + apply String.eqb_eq in E1 as ->.
      destruct (String.eqb k k') eqn:E2; case_decide; try done.
      * by apply String.eqb_eq in E2.
      * subst. by rewrite String.eqb_refl in E2.
    + rewrite IH. destruct (String.eqb k0 k') eqn:E2; [|done].
      apply String.eqb_eq in E2 as ->. case_decide; [|done].
      subst. by rewrite String.eqb_refl in E1.
Qed.

Lemma dict_set_keys {V} (k k' : string) (v : V) (d : list (string * V)) :
  k' ∈ (dict_set k v d).*1 ↔ k' = k ∨ k' ∈ d.*1.
Proof.
  induction d as [|[k0 v0] d IH]; simpl.
  - rewrite elem_of_cons. by split; intros [?|?]; eauto.
  - destruct (String.eqb k0 k) eqn:E1.
    + apply String.eqb_eq in E1 as ->. rewrite !fmap_cons, !elem_of_cons. simpl. tauto.
    + rewrite !fmap_cons, !elem_of_cons, IH. simpl. tauto.
Qed.

Lemma dict_set_NoDup {V} (k : string) (v : V) (d : list (string * V)) :
  NoDup d.*1 → NoDup (dict_set k v d).*1.
Proof.
  induction d as [|[k0 v0] d IH]; intros Hnd.
  - apply NoDup_singleton.
  - rewrite fmap_cons in Hnd. apply NoDup_cons in Hnd as [Hk0 Hnd]. simpl in Hk0.
    simpl. destruct (String.eqb k0 k) eqn:E1.
    + rewrite fmap_cons. apply NoDup_cons. by split.
    + rewrite fmap_cons. apply NoDup_cons. split; [|by apply IH]. simpl.
      rewrite dict_set_keys. intros [->|?]; [|done].
      by rewrite String.eqb_refl in E1.
Qed.

Lemma dict_get_elem {V} (k : string) (v : V) (d : list (string * V)) :
  NoDup d.*1 → dict_get k d = Some v → (k, v) ∈ d.
Proof.
  induction d as [|[k0 v0] d IH]; intros Hnd; [done|].
  rewrite fmap_cons in Hnd. apply NoDup_cons in Hnd as [_ Hnd].
  simpl. destruct (String.eqb k0 k) eqn:E.
  - apply String.eqb_eq in E as ->. intros [= ->]. left.
  - intros H. right. by apply IH.
Qed.

Section WorkerProps.

Variable get_entity_attributes : string → result (list Attribute.t).

(** The loop of [do_parallel_load], from the results gathered so far. *)
Lemma attributes_parallel_load_from (completed : list string)
    (acc : list (string * list Attribute.t)) :
  NoDup acc.*1 →
  ∃ results,
    foldl (λ acc logical_name,
             Py.bind acc (λ results,
             Py.bind (try_except (get_entity_attributes logical_name) (λ e, Ok []))
                     (λ attributes, Ok (dict_set logical_name attributes results))))
          (Ok acc) completed = Ok results
    ∧ NoDup results.*1
    ∧ (∀ k, k ∈ results.*1 ↔ k ∈ completed ∨ k ∈ acc.*1)
    ∧ (∀ k, dict_get k results =
            if decide (k ∈ completed)
            then Some (attributes_or_empty (get_entity_attributes k))
            else dict_get k acc).
Proof.
  revert acc. induction completed as [|name completed IH]; intros acc Hnd; simpl.
  - exists acc. split; [done|]. split; [done|]. split.
    + intros k. rewrite elem_of_nil. tauto.
    + done.
  - set (v := attributes_or_empty (get_entity_attributes name)).
    assert (try_except (get_entity_attributes name) (λ _, Ok []) = Ok v) as ->
      by (unfold v; by destruct (get_entity_attributes name)).
    simpl.
    destruct (IH (dict_set name v acc)) as (results & E & Hnd' & Hkeys & Hget);
      [by apply dict_set_NoDup|].
    exists results. split; [done|]. split; [done|]. split.
    + intros k. rewrite Hkeys, dict_set_keys, elem_of_cons. tauto.
    + intros k. rewrite Hget, dict_get_set.
      destruct (decide (k ∈ completed)) as [Hin|Hnin].
      * rewrite decide_True; [done|]. by right.
      * destruct (decide (name = k)) as [->|Hne].
        -- rewrite decide_True; [done|]. by left.
        -- rewrite decide_False; [done|]. intros [->|?]%elem_of_cons; done.
Qed.

Lemma attributes_parallel_load_ok (completed : list string) :
  ∃ results,
    attributes_parallel_load get_entity_attributes completed = Ok results
    ∧ NoDup results.*1
    ∧ (∀ k, k ∈ results.*1 ↔ k ∈ completed)
    ∧ (∀ k, k ∈ completed →
            (k, attributes_or_empty (get_entity_attributes k)) ∈ results).
Proof.
  destruct (attributes_parallel_load_from completed []) as (results & E & Hnd & Hkeys & Hget);
    [apply NoDup_nil_2|].
  exists results. split; [done|]. split; [done|]. split.
  - intros k. rewrite Hkeys. rewrite fmap_nil, elem_of_nil. tauto.
  - intros k Hk. apply dict_get_elem; [done|]. rewrite Hget. by rewrite decide_True.
Qed.

(** C3 (as the code has it). A batch of attribute fetches returns a
    result for every submitted name without raising, whatever tasks
    raise and in whatever order they complete: a task that raises leaves
    the empty list as its table's result, and each result depends on its
    own task only. When the results are applied, every selected table of
    the batch is marked loaded ([attrs_loaded] set, [attrs_loading]
    cleared) and gets its result as its attribute list, the table whose
    task raised exactly like the others, with no attributes. *)
Theorem bulk_attribute_batch (self : App) (completed : list string) (k : string)
    (Hrows : rows_cover self)
    (Hk : k ∈ completed)
    (Hsel : is_Some (selected_tables self !! k)) :
  ∃ results self',
    attributes_parallel_load get_entity_attributes completed = Ok results
    ∧ (∀ k', k' ∈ results.*1 ↔ k' ∈ completed)
    ∧ (∀ k', k' ∈ completed →
             (k', attributes_or_empty (get_entity_attributes k')) ∈ results)
    ∧ bulk_attributes_completion get_entity_attributes completed self = (Ok tt, self')
    ∧ table_attributes self' !! k = Some (attributes_or_empty (get_entity_attributes k))
    ∧ attrs_flags self' !! k = (λ _, (true, false)) <$> table_load_state self !! k.
Proof.
  destruct (attributes_parallel_load_ok completed) as (results & E & Hnd & Hkeys & Hget).
  destruct (_on_bulk_attributes_loaded_ok self results k
              (attributes_or_empty (get_entity_attributes k)))
    as (self' & E' & Ha & _ & Hf); try done; [by apply Hget|].
  exists results, self'. repeat split; try done; try apply Hkeys.
  unfold bulk_attributes_completion. rewrite bind_run. unfold lift. by rewrite E.
Qed.

End WorkerProps.

Lemma rows_cover_check (self : App) :
  forallb (λ k, bool_decide (k ∈ Tree.get_children (selected_tree self)))
          (map_to_list (selected_tables self)).*1 = true →
  rows_cover self.
Proof.
  intros H k [t Ht]. apply lookup_row_is_Some.
  rewrite forallb_forall in H.
  specialize (H k). rewrite bool_decide_eq_true in H. apply H.
  apply list_elem_of_In, list_elem_of_fmap. exists (k, t). split; [done|].
  by apply elem_of_map_to_list.
Qed.

Lemma bulk_attribute_batch_witness :
  ∃ results self',
    attributes_parallel_load failing_for_account ["contact"; "account"] = Ok results
    ∧ bulk_attributes_completion failing_for_account ["contact"; "account"]
        (state_of (_add_tables_bulk [account; contact]) empty_app) = (Ok tt, self')
    ∧ table_attributes self' !! "account" = Some []
    ∧ attrs_flags self' !! "account" = Some (true, false).
Proof.
  assert (rows_cover (state_of (_add_tables_bulk [account; contact]) empty_app)) as Hrows
    by (apply rows_cover_check; vm_compute; reflexivity).
  assert ("account" ∈ ["contact"; "account"]) as Hin by (right; left).
  assert (is_Some (selected_tables (state_of (_add_tables_bulk [account; contact]) empty_app)
                     !! "account")) as Hsel by (vm_compute; eauto).
  destruct (bulk_attribute_batch failing_for_account _ _ "account" Hrows Hin Hsel)
    as (results & self' & E1 & _ & _ & E2 & Ha & Hf).
  exists results, self'. split; [done|]. split; [done|]. split; [done|].
  rewrite Hf. vm_compute. reflexivity.
Defined.

(** C3 as written fails on its own scenario: the fetch of
    [account] raises and the fetch of [contact] answers, yet [account]
    ends with the same load state as [contact], marked loaded, with an
    empty attribute list; no load state tells the failure apart. *)
Lemma failed_fetch_ends_loaded :
  failing_for_account "account" = Raise HTTPError
  ∧ attributes_parallel_load failing_for_account ["contact"; "account"]
    = Ok [("contact", entity_attributes); ("account", [])]
  ∧ table_attributes batch_done !! "account" = Some []
  ∧ table_load_state batch_done !! "account"
    = Some (LoadState.mk true false false false true true)
  ∧ table_load_state batch_done !! "account" = table_load_state batch_done !! "contact".
Proof.
  split; [reflexivity|]. split; [reflexivity|].
  split; [vm_compute; reflexivity|]. split; vm_compute; reflexivity.
Qed.

(** ** The bulk forms-and-views load applied *)

(** [self.selected_views] after [record_view]. *)
Lemma record_view_run (k : string) (sel_view : option View.t) (self : App) :
  record_view k sel_view self =
    (Ok tt,
     match sel_view with
     | Some v => set_selected_views (<[k := View.savedqueryid v]> (selected_views self)) self
     | None => self
     end).
Proof. by destruct sel_view. Qed.

Lemma apply_forms_views_ok (self : App) (k : string) (forms : list Form.t)
    (views : list View.t) :
  rows_cover self →
  ∃ self', apply_forms_views (k, (forms, views)) self = (Ok tt, self')
    ∧ selected_tables self' = selected_tables self
    ∧ settings self' = settings self
    ∧ (Tree.rows (selected_tree self')).*1 = (Tree.rows (selected_tree self)).*1
    ∧ (is_Some (selected_tables self !! k) →
         table_forms self' = <[k := forms]> (table_forms self)
         ∧ table_views self' = <[k := views]> (table_views self)
         ∧ selected_views self' =
             match select_view views (AppSettings.table_views (settings self) !! k) with
             | Some v => <[k := View.savedqueryid v]> (selected_views self)
             | None => selected_views self
             end
         ∧ ∀ k', Tree.lookup_row k' (Tree.rows (selected_tree self')) =
                 if decide (k = k')
                 then (λ values,
                         set_values_2
                           (view_label (select_view views
                              (AppSettings.table_views (settings self) !! k)))
                           (set_values_1
                              (form_label forms (AppSettings.table_forms (settings self) !! k))
                              values))
                      <$> Tree.lookup_row k (Tree.rows (selected_tree self))
                 else Tree.lookup_row k' (Tree.rows (selected_tree self)))
    ∧ (selected_tables self !! k = None → self' = self).
Proof.
  intros HC. unfold apply_forms_views. exec.
  case_bool_decide as Hk; simpl.
  - destruct (HC k Hk) as [r Hr].
    destruct (table_load_state self !! k) as [state|] eqn:Est; exec.
    all: rewrite record_view_run; exec.
    all: match goal with
         | |- ∃ _, edit_row ?k0 ?f ?s = _ ∧ _ =>
             rewrite (edit_row_run s k0 f r)
         end.
    all: try (by destruct (select_view views _)).
    all: eexists; (split; [done|]).
    all: destruct (select_view views _) as [v|] eqn:Ev; simpl.
    all: split; [done|]; split; [done|]; split; [apply update_row_keys|].
    all: split; [|intros Hn; rewrite Hn in Hk; by destruct Hk].
    all: intros _; split; [done|]; split; [done|]; split; [done|].
    all: intros k'; rewrite lookup_update_row; case_decide; [|done].
    all: by rewrite Hr.
  - exists self. by repeat split.
Qed.

Lemma _on_bulk_forms_views_loaded_ok (self : App)
    (results : list (string * (list Form.t * list View.t)))
    (k : string) (forms : list Form.t) (views : list View.t) :
  rows_cover self → NoDup results.*1 → (k, (forms, views)) ∈ results →
  is_Some (selected_tables self !! k) →
  ∃ self', _on_bulk_forms_views_loaded results self = (Ok tt, self')
    ∧ table_forms self' !! k = Some forms
    ∧ table_views self' !! k = Some views
    ∧ Tree.form <$> Tree.lookup_row k (Tree.rows (selected_tree self'))
      = Some (form_label forms (AppSettings.table_forms (settings self) !! k))
    ∧ Tree.filter <$> Tree.lookup_row k (Tree.rows (selected_tree self'))
      = Some (view_label (select_view views (AppSettings.table_views (settings self) !! k)))
    ∧ selected_views self' !! k =
        match select_view views (AppSettings.table_views (settings self) !! k) with
        | Some v => Some (View.savedqueryid v)
        | None => selected_views self !! k
        end.
Proof.
  intros HC Hnd Hin Hk. unfold _on_bulk_forms_views_loaded.
  set (I := λ s : App, rows_cover s ∧ selected_tables s = selected_tables self
                       ∧ settings s = settings self).
  set (Pre := λ s : App, selected_views s !! k = selected_views self !! k).
  set (Post := λ s : App,
         table_forms s !! k = Some forms
         ∧ table_views s !! k = Some views
         ∧ Tree.form <$> Tree.lookup_row k (Tree.rows (selected_tree s))
           = Some (form_label forms (AppSettings.table_forms (settings self) !! k))
         ∧ Tree.filter <$> Tree.lookup_row k (Tree.rows (selected_tree s))
           = Some (view_label (select_view views (AppSettings.table_views (settings self) !! k)))
         ∧ selected_views s !! k =
             match select_view views (AppSettings.table_views (settings self) !! k) with
             | Some v => Some (View.savedqueryid v)
             | None => selected_views self !! k
             end).
  destruct (for_each_key I Pre Post results apply_forms_views k (forms, views) Hnd Hin)
    with (self := self) as (self1 & E1 & (HC1 & HT1 & HS1) & HP1); [|done|done|].
  { intros [k' [forms' views']] s Hx (HCs & HTs & HSs).
    destruct (apply_forms_views_ok s k' forms' views' HCs)
      as (s' & E & HT & HS & Hkeys & Hsel & Hno).
    exists s'. split; [done|]. split.
    { split; [|split; congruence].
      intros j Hj. rewrite HT in Hj. apply lookup_row_is_Some. rewrite Hkeys.
      apply lookup_row_is_Some. by apply HCs. }
    destruct (selected_tables s !! k') as [t|] eqn:Et.
    - destruct Hsel as (Hf & Hv & Hsv & Hrow); [done|]. simpl.
      split; [|split].
      + intros Hne. unfold Pre. rewrite Hsv.
        destruct (select_view views' _); [by rewrite lookup_insert_ne|done].
      + intros Hne (P1 & P2 & P3 & P4 & P5). unfold Post.
        rewrite Hf, Hv, Hsv, Hrow. rewrite !lookup_insert_ne by done.
        rewrite decide_False by done. repeat split; try done.
        destruct (select_view views' _); [by rewrite lookup_insert_ne|done].
      + intros [= -> -> ->] HPre. unfold Post.
        rewrite Hf, Hv, Hsv, Hrow, !lookup_insert_eq. rewrite decide_True by done.
        rewrite HSs. destruct (HCs k) as [r Hr]; [by rewrite HTs|]. rewrite Hr. simpl.
        repeat split; try done.
        destruct (select_view views _); [by rewrite lookup_insert_eq|done].
    - rewrite (Hno eq_refl). split; [done|]. split; [done|].
      intros [= -> -> ->]. rewrite HTs in Et. rewrite Et in Hk. by destruct Hk. }
  rewrite (bind_ok _ _ _ _ _ E1).
  match goal with |- ∃ self', ?m self1 = _ ∧ _ => set (tail := m) end.
  assert (tidy tail) as Htidy.
  { unfold tail. apply tidy_bind; [apply tidy_save_cache|intros _].
    apply tidy_bind; [apply tidy_autosave|intros _].
    intros s Hs. exec.
    destruct (Tree.get_children (selected_tree s)) as [|child ?]; [by apply tidy_ret|].
    destruct (Tree.selection (selected_tree s)); [|by apply tidy_ret].
    exec.
    destruct (tidy_click (set_selected_tree (Tree.selection_set (selected_tree s) child) s))
      as (a & s' & E & HT & HS); [exact Hs|].
    rewrite E. by exists a, s'. }
  destruct (Htidy self1 HC1) as ([] & self2 & E2 & _ & Hkeys & Hcols).
  exists self2. split; [done|].
  assert (self2 = (tail self1).2) as Hself2 by (by rewrite E2).
  destruct HP1 as (P1 & P2 & P3 & P4 & P5).
  assert (data_part table_forms) as HD1 by data_part_auto.
  assert (data_part table_views) as HD2 by data_part_auto.
  assert (data_part selected_views) as HD3 by data_part_auto.
  assert (keeps table_forms tail) as K1 by (unfold tail; keeps_data).
  assert (keeps table_views tail) as K2 by (unfold tail; keeps_data).
  assert (keeps selected_views tail) as K3 by (unfold tail; keeps_data).
  destruct (Hcols k) as [Hc1 Hc2].
  rewrite Hc1, Hc2. rewrite Hself2, K1, K2, K3. by repeat split.
Qed.

(** ** The single forms-and-views load applied *)

Lemma _on_forms_views_loaded_ok (self : App) (k : string) (forms : list Form.t)
    (views : list View.t) (st : LoadState.t) :
  rows_cover self → is_Some (selected_tables self !! k) →
  table_load_state self !! k = Some st →
  ∃ self', _on_forms_views_loaded k forms views self = (Ok tt, self')
    ∧ table_forms self' !! k = Some forms
    ∧ table_views self' !! k = Some views
    ∧ Tree.form <$> Tree.lookup_row k (Tree.rows (selected_tree self'))
      = Some (form_label forms (AppSettings.table_forms (settings self) !! k))
    ∧ Tree.filter <$> Tree.lookup_row k (Tree.rows (selected_tree self'))
      = Some (view_label (select_view views (AppSettings.table_views (settings self) !! k)))
    ∧ selected_views self' !! k =
        match select_view views (AppSettings.table_views (settings self) !! k) with
        | Some v => Some (View.savedqueryid v)
        | None => selected_views self !! k
        end.
Proof.
  intros HC [table Ht] Hst. unfold _on_forms_views_loaded. exec. rewrite Ht. exec.
  unfold subscript. rewrite Hst. exec. rewrite record_view_run. exec.
  destruct (HC k) as [r Hr]; [by eexists|].
  unfold Tree.set_item.
  assert (∀ s : App, Tree.rows (selected_tree s) = Tree.rows (selected_tree self) →
            Tree.lookup_row k (Tree.rows (selected_tree s)) = Some r) as Hrow
    by (intros s ->; done).
  destruct (select_view views (AppSettings.table_views (settings self) !! k)) as [v|] eqn:Ev;
    simpl; rewrite Hr.
  all: erewrite bind_ok by reflexivity.
  all: match goal with |- ∃ self', ?m ?s1 = _ ∧ _ => set (tail := m); set (self1 := s1) end.
  all: assert (rows_cover self1) as HC1
         by (intros j Hj; apply lookup_row_is_Some; unfold self1; simpl;
             rewrite update_row_keys; apply lookup_row_is_Some; by apply HC).
  all: assert (tidy tail) as Htidy
         by (unfold tail; apply tidy_bind; [|intros _; apply tidy_autosave];
             destruct (Tree.selection (selected_tree self)); [apply tidy_ret|];
             apply tidy_when, tidy_click).
  all: destruct (Htidy self1 HC1) as ([] & self2 & E2 & _ & Hkeys & Hcols).
  all: exists self2; (split; [done|]).
  all: assert (self2 = (tail self1).2) as Hself2 by (by rewrite E2).
  all: assert (data_part table_forms) as HD1 by data_part_auto.
  all: assert (data_part table_views) as HD2 by data_part_auto.
  all: assert (data_part selected_views) as HD3 by data_part_auto.
  all: assert (keeps table_forms tail) as K1 by (unfold tail; keeps_data).
  all: assert (keeps table_views tail) as K2 by (unfold tail; keeps_data).
  all: assert (keeps selected_views tail) as K3 by (unfold tail; keeps_data).
  all: destruct (Hcols k) as [Hc1 Hc2].
  all: rewrite Hc1, Hc2, Hself2, K1, K2, K3; unfold self1; simpl.
  all: rewrite lookup_update_row, decide_True, Hr, ?lookup_insert_eq by done; simpl.
  all: by repeat split.
Qed.

(** ** The choice of a form and of a view *)

Lemma find_first {A} (P : A → bool) (before : list A) (x : A) (after : list A) :
  Forall (λ y, P y = false) before → P x = true →
  List.find P (before ++ x :: after) = Some x.
Proof.
  intros Hb Hx. induction Hb as [|y before Hy Hb IH]; simpl.
  - by rewrite Hx.
  - by rewrite Hy.
Qed.

Lemma find_none {A} (P : A → bool) (l : list A) :
  Forall (λ y, P y = false) l → List.find P l = None.
Proof. intros H. induction H as [|y l Hy H IH]; simpl; [done|]. by rewrite Hy. Qed.

Lemma select_form_saved (before : list Form.t) (f : Form.t) (after : list Form.t)
    (sid : string) :
  Forall (λ g, Form.formid g ≠ sid) before → Form.formid f = sid →
  select_form (before ++ f :: after) (Some sid) = Some f.
Proof.
  intros Hb Hf. unfold select_form.
  rewrite (find_first _ before f after).
  - by destruct before.
  - eapply Forall_impl; [exact Hb|]. intros g Hg. simpl.
    apply bool_decide_eq_false_2. congruence.
  - apply bool_decide_eq_true_2. congruence.
Qed.

Lemma select_form_first (first : Form.t) (rest : list Form.t) (saved : option string) :
  Forall (λ g, Some (Form.formid g) ≠ saved) (first :: rest) →
  select_form (first :: rest) saved = Some first.
Proof.
  intros H. unfold select_form. rewrite find_none; [done|].
  eapply Forall_impl; [exact H|]. intros g Hg. simpl. by apply bool_decide_eq_false_2.
Qed.

Lemma select_view_saved (before : list View.t) (v : View.t) (after : list View.t)
    (sid : string) :
  Forall (λ w, View.savedqueryid w ≠ sid) before → View.savedqueryid v = sid →
  select_view (before ++ v :: after) (Some sid) = Some v.
Proof.
  intros Hb Hv. unfold select_view.
  rewrite (find_first _ before v after).
  - by destruct before.
  - eapply Forall_impl; [exact Hb|]. intros g Hg. simpl.
    apply bool_decide_eq_false_2. congruence.
  - apply bool_decide_eq_true_2. congruence.
Qed.

Lemma select_view_default (before : list View.t) (d : View.t) (after : list View.t)
    (saved : option string) :
  Forall (λ w, Some (View.savedqueryid w) ≠ saved) (before ++ d :: after) →
  Forall (λ w, View.isdefault w = false) before → View.isdefault d = true →
  select_view (before ++ d :: after) saved = Some d.
Proof.
  intros Hs Hb Hd. unfold select_view, default_view.
  rewrite find_none.
  - rewrite (find_first _ before d after) by done. by destruct before.
  - eapply Forall_impl; [exact Hs|]. intros g Hg. simpl. by apply bool_decide_eq_false_2.
Qed.

Lemma select_view_first (first : View.t) (rest : list View.t) (saved : option string) :
  Forall (λ w, Some (View.savedqueryid w) ≠ saved) (first :: rest) →
  Forall (λ w, View.isdefault w = false) (first :: rest) →
  select_view (first :: rest) saved = Some first.
Proof.
  intros Hs Hd. unfold select_view, default_view.
  rewrite find_none.
  - by rewrite find_none.
  - eapply Forall_impl; [exact Hs|]. intros g Hg. simpl. by apply bool_decide_eq_false_2.
Qed.

(** C7. When the forms fetched for a selected table are applied, by the
    bulk callback or by the single one, the callback returns and the
    form column of the table's row names the chosen form: the first
    form whose id is the one the settings hold for the table, if the
    fetched forms have it; otherwise the first fetched form; and the
    label [(no forms)] when no form was fetched. *)
Theorem form_choice (self : App) (k : string) (forms : list Form.t)
    (Hrows : rows_cover self) (Hk : is_Some (selected_tables self !! k)) :
  let saved_form_id := AppSettings.table_forms (settings self) !! k in
  (∀ (before : list Form.t) (f : Form.t) (after : list Form.t) (sid : string),
     forms = (before ++ f :: after)%list → saved_form_id = Some sid →
     Forall (λ g, Form.formid g ≠ sid) before → Form.formid f = sid →
     select_form forms saved_form_id = Some f)
  ∧ (∀ first rest,
       forms = first :: rest → Forall (λ g, Some (Form.formid g) ≠ saved_form_id) forms →
       select_form forms saved_form_id = Some first)
  ∧ (forms = [] → form_label forms saved_form_id = "(no forms)")
  ∧ (∀ f, select_form forms saved_form_id = Some f →
          form_label forms saved_form_id = default "Unnamed" (Form.name f))
  ∧ (∀ results views,
       NoDup results.*1 → (k, (forms, views)) ∈ results →
       ∃ self', _on_bulk_forms_views_loaded results self = (Ok tt, self')
         ∧ table_forms self' !! k = Some forms
         ∧ Tree.form <$> Tree.lookup_row k (Tree.rows (selected_tree self'))
           = Some (form_label forms saved_form_id))
  ∧ (∀ views st,
       table_load_state self !! k = Some st →
       ∃ self', _on_forms_views_loaded k forms views self = (Ok tt, self')
         ∧ table_forms self' !! k = Some forms
         ∧ Tree.form <$> Tree.lookup_row k (Tree.rows (selected_tree self'))
           = Some (form_label forms saved_form_id)).
Proof.
  intros saved_form_id. repeat split.
  - intros before f after sid -> -> Hb Hf. by apply select_form_saved.
  - intros first rest -> H. by apply select_form_first.
  - by intros ->.
  - intros f Hf. unfold form_label. by rewrite Hf.
  - intros results views Hnd Hin.
    destruct (_on_bulk_forms_views_loaded_ok self results k forms views)
      as (self' & E & Hf & _ & Hrow & _); try done.
    by exists self'.
  - intros views st Hst.
    destruct (_on_forms_views_loaded_ok self k forms views st)
      as (self' & E & Hf & _ & Hrow & _); try done.
    by exists self'.
Qed.

(** The third scenario of the specification: the settings name [F1],
    the fetched forms are [F2] and [F3]; the first one is chosen. *)
Lemma form_choice_witness :
  select_form account_forms (Some "F1") = Some (Form.mk "F2" (Some "Account") None)
  ∧ ∃ self',
      _on_bulk_forms_views_loaded [("account", (account_forms, account_views))]
        form_saved_session = (Ok tt, self')
      ∧ Tree.form <$> Tree.lookup_row "account" (Tree.rows (selected_tree self'))
        = Some "Account".
Proof.
  assert (rows_cover form_saved_session) as Hrows
    by (apply rows_cover_check; vm_compute; reflexivity).
  assert (is_Some (selected_tables form_saved_session !! "account")) as Hk
    by (vm_compute; eauto).
  assert (AppSettings.table_forms (settings form_saved_session) !! "account" = Some "F1")
    as Hsaved by (vm_compute; reflexivity).
  destruct (form_choice form_saved_session "account" account_forms Hrows Hk)
    as (_ & Hfirst & _ & _ & Hbulk & _).
  split.
  - rewrite <- Hsaved. apply (Hfirst _ [Form.mk "F3" (Some "Sales Insights") None]).
    + reflexivity.
    + rewrite Hsaved. repeat constructor; simpl; congruence.
  - destruct (Hbulk [("account", (account_forms, account_views))] account_views)
      as (self' & E & _ & Hrow).
    + apply NoDup_singleton.
    + left.
    + exists self'. split; [done|]. rewrite Hrow, Hsaved. reflexivity.
Defined.

(** The view chosen when fetched views are applied to a selected table,
    by the bulk callback or by the single one: the first view whose id
    is the one the settings hold for the table, if the fetched views
    have it; otherwise the first view flagged as default; otherwise the
    first view. The callback returns and records the id of that view. *)
Theorem view_choice (self : App) (k : string) (views : list View.t)
    (Hrows : rows_cover self) (Hk : is_Some (selected_tables self !! k)) :
  let saved_view_id := AppSettings.table_views (settings self) !! k in
  (∀ (before : list View.t) (v : View.t) (after : list View.t) (sid : string),
     views = (before ++ v :: after)%list → saved_view_id = Some sid →
     Forall (λ w, View.savedqueryid w ≠ sid) before → View.savedqueryid v = sid →
     select_view views saved_view_id = Some v)
  ∧ (∀ (before : list View.t) (d : View.t) (after : list View.t),
       views = (before ++ d :: after)%list →
       Forall (λ w, Some (View.savedqueryid w) ≠ saved_view_id) views →
       Forall (λ w, View.isdefault w = false) before → View.isdefault d = true →
       select_view views saved_view_id = Some d)
  ∧ (∀ first rest,
       views = first :: rest →
       Forall (λ w, Some (View.savedqueryid w) ≠ saved_view_id) views →
       Forall (λ w, View.isdefault w = false) views →
       select_view views saved_view_id = Some first)
  ∧ (∀ results forms v,
       NoDup results.*1 → (k, (forms, views)) ∈ results →
       select_view views saved_view_id = Some v →
       ∃ self', _on_bulk_forms_views_loaded results self = (Ok tt, self')
         ∧ selected_views self' !! k = Some (View.savedqueryid v))
  ∧ (∀ forms st v,
       table_load_state self !! k = Some st →
       select_view views saved_view_id = Some v →
       ∃ self', _on_forms_views_loaded k forms views self = (Ok tt, self')
         ∧ selected_views self' !! k = Some (View.savedqueryid v)).
Proof.
  intros saved_view_id. repeat split.
  - intros before v after sid -> -> Hb Hv. by apply select_view_saved.
  - intros before d after -> Hs Hb Hd. by apply select_view_default.
  - intros first rest -> Hs Hd. by apply select_view_first.
  - intros results forms v Hnd Hin Hv.
    destruct (_on_bulk_forms_views_loaded_ok self results k forms views)
      as (self' & E & _ & _ & _ & _ & Hsv); try done.
    exists self'. split; [done|]. rewrite Hsv. fold saved_view_id. by rewrite Hv.
  - intros forms st v Hst Hv.
    destruct (_on_forms_views_loaded_ok self k forms views st)
      as (self' & E & _ & _ & _ & _ & Hsv); try done.
    exists self'. split; [done|]. rewrite Hsv. fold saved_view_id. by rewrite Hv.
Qed.

Lemma view_choice_witness :
  ∃ self',
    _on_bulk_forms_views_loaded [("account", (account_forms, account_views))]
      form_saved_session = (Ok tt, self')
    ∧ selected_views self' !! "account" = Some "V2".
Proof.
  assert (rows_cover form_saved_session) as Hrows
    by (apply rows_cover_check; vm_compute; reflexivity).
  assert (is_Some (selected_tables form_saved_session !! "account")) as Hk
    by (vm_compute; eauto).
  destruct (view_choice form_saved_session "account" account_views Hrows Hk)
    as (_ & _ & _ & Hbulk & _).
  apply (Hbulk [("account", (account_forms, account_views))] account_forms
           (View.mk "V2" (Some "My Active Accounts") true (Some 0%Z))).
  - apply NoDup_singleton.
  - left.
  - vm_compute. reflexivity.
Defined.

(** C6, at the input where the code departs from it. The settings name
    the view [V9] for [account]; the views of [account] are [V1] and
    [V2], and [V2] is the default. Applying the fetched views chooses
    [V2]; restoring the same views from the cache keeps [V9], a view
    that the table does not have, and shows [(no views)]. *)
Theorem restore_keeps_stale_view :
  Forall (λ v, View.savedqueryid v ≠ "V9") account_views
  ∧ View.savedqueryid <$> select_view account_views (Some "V9") = Some "V2"
  ∧ selected_views stale_view_fetched !! "account" = Some "V2"
  ∧ _restore_from_cache stale_view_session
    = (Ok tt, state_of _restore_from_cache stale_view_session)
  ∧ table_views (state_of _restore_from_cache stale_view_session) !! "account"
    = Some account_views
  ∧ selected_views (state_of _restore_from_cache stale_view_session) !! "account"
    = Some "V9"
  ∧ Tree.filter <$> Tree.lookup_row "account"
      (Tree.rows (selected_tree (state_of _restore_from_cache stale_view_session)))
    = Some "(no views)".
Proof.
  split; [repeat constructor; simpl; congruence|].
  split; [reflexivity|].
  split; [vm_compute; reflexivity|].
  split; [vm_compute; reflexivity|].
  split; [vm_compute; reflexivity|].
  split; vm_compute; reflexivity.
Qed.

(** ** Removing a table *)




(** ** Item ids of tables whose name has an underscore *)

(** The attribute name that the attribute callbacks read from an item
    id is what follows its first underscore. For a table whose logical
    name has none this is the attribute of the row; for [new_project] it
    is not: a click on the row of [new_projectid] adds the key
    [project_new_projectid] to the selection. *)
Example item_id_of_prefixed_table :
  let new_project := Table.mk "new_project" "Project" (Some "new_projectid") (Some "new_name") in
  let self :=
    state_of (_on_bulk_attributes_loaded
                [("new_project", [Attribute.mk "new_projectid" "Project" "Uniqueidentifier" true;
                                  Attribute.mk "new_name" "Name" "String" true])])
      (state_of (_add_tables_bulk [new_project]) empty_app) in
  let selected := set_selected_tree (Tree.selection_set (selected_tree self) "new_project") self in
  after_underscore (attr_item_id "account" "accountid") = Some "accountid"
  ∧ after_underscore (attr_item_id "new_project" "new_projectid") = Some "project_new_projectid"
  ∧ selected_attributes selected !! "new_project" = Some {["new_projectid"; "new_name"]}
  ∧ selected_attributes
      (state_of (_on_attr_click (attr_item_id "new_project" "new_projectid")) selected)
      !! "new_project"
    = Some {["new_projectid"; "new_name"; "project_new_projectid"]}.
Proof.
  split; [reflexivity|]. split; [reflexivity|].
  split; vm_compute; reflexivity.
Qed.

(** ** Saved choices and the autosave *)


(** ** The required attributes are selected when attributes are applied *)

Lemma add_important_superset (attributes : list Attribute.t) (s : gset string) :
  s ⊆ add_important attributes s.
Proof.
  unfold add_important. revert s.
  induction attributes as [|attr attributes IH]; intros s; simpl; [done|].
  etrans; [|apply IH]. case_bool_decide; set_solver.
Qed.

Lemma restore_saved_attrs_superset (saved_attrs : option (list string))
    (attributes : list Attribute.t) (s : gset string) :
  s ⊆ restore_saved_attrs saved_attrs attributes s.
Proof.
  destruct saved_attrs as [[|x l]|]; simpl;
    [apply add_important_superset | set_solver | apply add_important_superset].
Qed.

Lemma apply_attributes_tables (r : string * list Attribute.t) :
  keeps selected_tables (apply_attributes r).
Proof.
  assert (data_part selected_tables) as HD by data_part_auto.
  unfold apply_attributes. keeps_data.
Qed.

Lemma _on_bulk_attributes_loaded_tables (results : list (string * list Attribute.t)) :
  keeps selected_tables (_on_bulk_attributes_loaded results).
Proof.
  assert (data_part selected_tables) as HD by data_part_auto.
  unfold _on_bulk_attributes_loaded. keeps_data. apply apply_attributes_tables.
Qed.

Lemma _on_attributes_loaded_tables (k : string) (attributes : list Attribute.t) :
  keeps selected_tables (_on_attributes_loaded k attributes).
Proof.
  assert (data_part selected_tables) as HD by data_part_auto.
  unfold _on_attributes_loaded, selected_of. keeps_data.
Qed.

(** Applying a fetched attribute list to a selected table, in bulk or
    alone, returns and leaves the table with its required attributes
    (primary id and primary name) selected, whatever the settings and
    the fetched list hold. *)
Theorem required_selected_after_load (self : App) (k : string)
    (Hrows : rows_cover self) (Hk : is_Some (selected_tables self !! k)) :
  (∀ results attributes,
     NoDup results.*1 → (k, attributes) ∈ results →
     ∃ self', _on_bulk_attributes_loaded results self = (Ok tt, self')
       ∧ required_selected self' k)
  ∧ (∀ attributes st s,
       table_load_state self !! k = Some st →
       selected_attributes self !! k = Some s →
       ∃ self', _on_attributes_loaded k attributes self = (Ok tt, self')
         ∧ required_selected self' k).
Proof.
  split.
  - intros results attributes Hnd Hin.
    destruct (_on_bulk_attributes_loaded_ok self results k attributes)
      as (self' & E & _ & Hs & _); try done.
    exists self'. split; [done|]. eexists. split; [exact Hs|].
    assert (selected_tables self' = selected_tables self) as HT.
    { pose proof (_on_bulk_attributes_loaded_tables results self) as H.
      by rewrite E in H. }
    rewrite (_get_required_attributes_ext self self') by done.
    apply restore_saved_attrs_superset.
  - intros attributes st s Hst Hs.
    destruct (_on_attributes_loaded_ok self k attributes st s)
      as (self' & E & _ & Hs' & _); try done.
    exists self'. split; [done|]. eexists. split; [exact Hs'|].
    assert (selected_tables self' = selected_tables self) as HT.
    { pose proof (_on_attributes_loaded_tables k attributes self) as H.
      by rewrite E in H. }
    rewrite (_get_required_attributes_ext self self') by done.
    etrans; [|apply restore_saved_attrs_superset]. set_solver.
Qed.

Lemma required_selected_after_load_witness :
  ∃ self',
    _on_bulk_attributes_loaded [("entity", entity_attributes)]
      (state_of (_add_tables_bulk [entity]) saved_session) = (Ok tt, self')
    ∧ required_selected self' "entity".
Proof.
  assert (is_Some (selected_tables (state_of (_add_tables_bulk [entity]) saved_session)
                     !! "entity")) as Hk by (vm_compute; eauto).
  destruct (required_selected_after_load _ "entity" rows_cover_entity_added Hk) as [H _].
  apply (H [("entity", entity_attributes)] entity_attributes).
  - apply NoDup_singleton.
  - left.
Defined.

(** The first scenario of the specification: no saved selection, the
    fetched attributes are [id], [name], [createdon] and [custom_field];
    the selection is the two required attributes and [createdon]. *)
Example default_selection_scenario :
  let fetched :=
    (entity_attributes ++ [Attribute.mk "custom_field" "Custom" "String" true])%list in
  selected_attributes
    (state_of (_on_bulk_attributes_loaded [("entity", fetched)])
       (state_of (_add_tables_bulk [entity]) empty_app)) !! "entity"
  = Some {["id"; "name"; "createdon"]}.
Proof. vm_compute. reflexivity. Qed.

(** ** The order of a batch does not matter *)

(** Applying the results of a bulk attribute load in another order
    gives every selected table of the batch the same attribute list, the
    same selection and the same attribute flags. *)
Theorem bulk_attributes_order_independent (self : App)
    (results results' : list (string * list Attribute.t))
    (k : string) (attributes : list Attribute.t)
    (Hrows : rows_cover self)
    (Hnd : NoDup results.*1)
    (Hperm : results ≡ₚ results')
    (Hin : (k, attributes) ∈ results)
    (Hk : is_Some (selected_tables self !! k)) :
  ∃ self1 self2,
    _on_bulk_attributes_loaded results self = (Ok tt, self1)
    ∧ _on_bulk_attributes_loaded results' self = (Ok tt, self2)
    ∧ table_attributes self1 !! k = table_attributes self2 !! k
    ∧ selected_attributes self1 !! k = selected_attributes self2 !! k
    ∧ attrs_flags self1 !! k = attrs_flags self2 !! k.
Proof.
  assert (NoDup results'.*1) as Hnd' by (by rewrite <- Hperm).
  assert ((k, attributes) ∈ results') as Hin' by (by rewrite <- Hperm).
  destruct (_on_bulk_attributes_loaded_ok self results k attributes)
    as (self1 & E1 & A1 & S1 & F1); try done.
  destruct (_on_bulk_attributes_loaded_ok self results' k attributes)
    as (self2 & E2 & A2 & S2 & F2); try done.
  exists self1, self2. repeat split; congruence.
Qed.

Lemma bulk_attributes_order_independent_witness :
  ∃ self1 self2,
    _on_bulk_attributes_loaded [("account", account_attributes); ("contact", [])]
      (state_of (_add_tables_bulk [account; contact]) empty_app) = (Ok tt, self1)
    ∧ _on_bulk_attributes_loaded [("contact", []); ("account", account_attributes)]
        (state_of (_add_tables_bulk [account; contact]) empty_app) = (Ok tt, self2)
    ∧ selected_attributes self1 !! "account" = selected_attributes self2 !! "account".
Proof.
  assert (rows_cover (state_of (_add_tables_bulk [account; contact]) empty_app)) as Hrows
    by (apply rows_cover_check; vm_compute; reflexivity).
  assert (is_Some (selected_tables (state_of (_add_tables_bulk [account; contact]) empty_app)
                     !! "account")) as Hsel by (vm_compute; eauto).
  destruct (bulk_attributes_order_independent
              (state_of (_add_tables_bulk [account; contact]) empty_app)
              [("account", account_attributes); ("contact", [])]
              [("contact", []); ("account", account_attributes)]
              "account" account_attributes Hrows)
    as (self1 & self2 & E1 & E2 & _ & HS & _).
  - repeat constructor; set_solver.
  - apply perm_swap.
  - left.
  - exact Hsel.
  - by exists self1, self2.
Defined.
